(** * Update tracker: the status-file watcher of [custom/custom.c]

    A shallow embedding of the watcher and of the simulator task, together
    with the properties of the specification settled against it.

    - The file-access layer and the clock are those of the builds that
      compile the POSIX code, the [#else] branches of lines 106-112,
      138-149, 170-191 and 276-278: the desktop simulator and the Linux
      target.  The Zephyr branches are not part of the model.
    - C strings are [list ascii]; a pointer into a string is the suffix that
      starts at the pointed character.
    - [int] and [int64_t] values are [Z], reduced with [int_wrap] and
      [int64_wrap] where the C code computes.
    - Calls into libc, the operating system and LVGL are events of a small
      free monad [io]; a handler answers them, and every run records the
      trace of calls together with their answers.  The statics of the file
      are passed explicitly. *)

From Stdlib Require Import Ascii String DecimalString.
From Stdlib Require Import ZArith List Bool Lia Arith.
Import ListNotations.

(* ===================================================================== *)
(** ** Characters and C strings *)
(* ===================================================================== *)

Module CStr.

Definition NUL : ascii := "000"%char.
Definition TAB : ascii := "009"%char.
Definition LF : ascii := "010"%char.
Definition CR : ascii := "013"%char.
Definition SPACE : ascii := " "%char.
Definition DQUOTE : ascii := "034"%char.
Definition COLON : ascii := ":"%char.
Definition COMMA : ascii := ","%char.
Definition RBRACE : ascii := "}"%char.

(** Text of a C literal.  An apostrophe in the Rocq literal stands for the
    double quote of the C literal (none of the C literals of the program
    contains an apostrophe). *)
Definition lit (s : string) : list ascii :=
  map (fun c => if Ascii.eqb c "'"%char then DQUOTE else c)
      (list_ascii_of_string s).

(** One source line of a C literal, ending in a newline. *)
Definition line (s : string) : list ascii := lit s ++ [LF].

(** The string a [char*] denotes: the bytes before the first NUL. *)
Fixpoint cstring (buf : list ascii) : list ascii :=
  match buf with
  | [] => []
  | c :: t => if Ascii.eqb c NUL then [] else c :: cstring t
  end.

Fixpoint is_prefix (p s : list ascii) : bool :=
  match p, s with
  | [], _ => true
  | _ :: _, [] => false
  | a :: p', b :: s' => Ascii.eqb a b && is_prefix p' s'
  end.

(** [strstr]: the suffix of [hay] at the first occurrence of [needle]. *)
Fixpoint strstr (hay needle : list ascii) : option (list ascii) :=
  match hay with
  | [] => if is_prefix needle [] then Some [] else None
  | _ :: t => if is_prefix needle hay then Some hay else strstr t needle
  end.

(** [strchr]: the suffix of [s] at the first occurrence of [c]. *)
Fixpoint strchr (s : list ascii) (c : ascii) : option (list ascii) :=
  match s with
  | [] => None
  | a :: t => if Ascii.eqb a c then Some s else strchr t c
  end.

(** [*p]: the pointed character, the terminator at the end. *)
Definition deref (p : list ascii) : ascii := hd NUL p.

(** [q - p] for two pointers into the same string, [p] not after [q]. *)
Definition ptr_diff (q p : list ascii) : nat := length p - length q.

(** [snprintf(dst, size, ...)]: the formatted text cut to [size - 1]. *)
Definition snprintf (size : nat) (text : list ascii) : list ascii :=
  firstn (size - 1) text.

(** [%d] of an [int]. *)
Definition fmt_d (z : Z) : list ascii :=
  list_ascii_of_string (NilZero.string_of_int (Z.to_int z)).

End CStr.

Import CStr.

(* ===================================================================== *)
(** ** Machine integers *)
(* ===================================================================== *)

Definition wrap_signed (bits : Z) (z : Z) : Z :=
  (z + 2 ^ (bits - 1)) mod 2 ^ bits - 2 ^ (bits - 1).

Definition int_wrap : Z -> Z := wrap_signed 32.
Definition int64_wrap : Z -> Z := wrap_signed 64.

(** [isspace] in the C locale. *)
Definition isspace (c : ascii) : bool :=
  let n := nat_of_ascii c in
  (n =? 32)%nat || ((9 <=? n)%nat && (n <=? 13)%nat).

Definition isdigit (c : ascii) : bool :=
  let n := nat_of_ascii c in (48 <=? n)%nat && (n <=? 57)%nat.

Definition digit_val (c : ascii) : Z := Z.of_nat (nat_of_ascii c) - 48.

Fixpoint skip_while (p : ascii -> bool) (s : list ascii) : list ascii :=
  match s with
  | c :: t => if p c then skip_while p t else s
  | [] => []
  end.

Fixpoint atoi_digits (acc : Z) (s : list ascii) : Z :=
  match s with
  | c :: t => if isdigit c then atoi_digits (acc * 10 + digit_val c) t else acc
  | [] => acc
  end.

(** [long] of the POSIX builds (LP64). *)
Definition LONG_MAX : Z := (2 ^ 63 - 1)%Z.
Definition LONG_MIN : Z := (- 2 ^ 63)%Z.

(** [strtol(s, NULL, 10)] of libc: leading white space, an optional sign,
    then decimal digits up to the first other character; a value outside
    [long] is replaced by [LONG_MAX] or [LONG_MIN]. *)
Definition strtol (s : list ascii) : Z :=
  match skip_while isspace s with
  | c :: t =>
      if Ascii.eqb c "-"%char then Z.max LONG_MIN (- atoi_digits 0 t)
      else if Ascii.eqb c "+"%char then Z.min LONG_MAX (atoi_digits 0 t)
      else Z.min LONG_MAX (atoi_digits 0 (c :: t))
  | [] => 0%Z
  end.

(** [atoi] of libc, which is [(int) strtol(s, NULL, 10)]: the [long] is
    cut to the 32 bits of an [int]. *)
Definition atoi (s : list ascii) : Z := int_wrap (strtol s).

(* ===================================================================== *)
(** ** The field extractor: [parse_json_value] *)
(* ===================================================================== *)

(** The white space skipped after the colon (line 219). *)
Definition is_json_ws (c : ascii) : bool :=
  Ascii.eqb c SPACE || Ascii.eqb c TAB || Ascii.eqb c LF || Ascii.eqb c CR.

(** The loop condition of the bare-token scan (lines 241-242); the test
    [*value_end] is the end of the list. *)
Definition is_token_char (c : ascii) : bool :=
  negb (Ascii.eqb c COMMA) && negb (Ascii.eqb c RBRACE) &&
  negb (Ascii.eqb c SPACE) && negb (Ascii.eqb c TAB) &&
  negb (Ascii.eqb c LF) && negb (Ascii.eqb c CR).

(** Lines 232-237 and 246-251: the length is clamped to [max_len - 1] and
    that many bytes are copied, followed by the terminator. *)
Definition copy_value (value_start : list ascii) (len max_len : nat)
  : list ascii :=
  let len := if (max_len <=? len)%nat then (max_len - 1)%nat else len in
  firstn len value_start.

(** [parse_json_value(json, key, value, max_len)]: [None] is the return
    value [false] (the destination is not written on that path), [Some v]
    is [true] with [v] the string left in [value].  [json] and [key] are
    read as C strings.  The callers pass the size of a non-empty array for
    [max_len]; with [max_len = 0] the C code would store at
    [value[SIZE_MAX]], which has no defined behaviour and is not
    represented. *)
Definition parse_json_value (json key : list ascii) (max_len : nat)
  : option (list ascii) :=
  let json := cstring json in
  let search_key := snprintf 64 ([DQUOTE] ++ cstring key ++ [DQUOTE]) in
  match strstr json search_key with
  | None => None
  | Some key_pos =>
      match strchr (skipn (length search_key) key_pos) COLON with
      | None => None
      | Some value_start =>
          let value_start := skip_while is_json_ws (tl value_start) in
          if Ascii.eqb (deref value_start) DQUOTE then
            let value_start := tl value_start in
            match strchr value_start DQUOTE with
            | None => None
            | Some value_end =>
                Some (copy_value value_start
                        (ptr_diff value_end value_start) max_len)
            end
          else
            let value_end := skip_while is_token_char value_start in
            Some (copy_value value_start
                    (ptr_diff value_end value_start) max_len)
      end
  end.

(** *** The scan as the specification words it (section 4.2)

    Written from the text of the specification, with positions as indices,
    to be compared with [parse_json_value]. *)
Module Reference.

(** Index of the first occurrence of [needle] in [text]. *)
Fixpoint find (needle text : list ascii) : option nat :=
  match text with
  | [] => if is_prefix needle [] then Some O else None
  | _ :: t =>
      if is_prefix needle text then Some O
      else option_map S (find needle t)
  end.

(** Index of the first [c] in [text]. *)
Fixpoint index_of (c : ascii) (text : list ascii) : option nat :=
  match text with
  | [] => None
  | a :: t => if Ascii.eqb a c then Some O else option_map S (index_of c t)
  end.

Fixpoint take_while (p : ascii -> bool) (text : list ascii) : list ascii :=
  match text with
  | a :: t => if p a then a :: take_while p t else []
  | [] => []
  end.

Fixpoint drop_while (p : ascii -> bool) (text : list ascii) : list ascii :=
  match text with
  | a :: t => if p a then drop_while p t else text
  | [] => []
  end.

(** "Skip whitespace (space, tab, CR, LF)". *)
Definition is_whitespace (c : ascii) : bool :=
  existsb (Ascii.eqb c) [SPACE; TAB; CR; LF].

(** "the first of: comma, closing brace, space, tab, CR, LF" (the end of
    input is the end of the list). *)
Definition ends_bare_token (c : ascii) : bool :=
  existsb (Ascii.eqb c) [COMMA; RBRACE; SPACE; TAB; CR; LF].

(** "copied into the destination up to [max_len - 1] bytes". *)
Definition truncate (max_len : nat) (v : list ascii) : list ascii :=
  firstn (max_len - 1) v.

Definition quoted (field_name : list ascii) : list ascii :=
  [DQUOTE] ++ field_name ++ [DQUOTE].

Definition extract (text field_name : list ascii) (max_len : nat)
  : option (list ascii) :=
  match find (quoted field_name) text with
  | None => None
  | Some i =>
      let after_name := skipn (i + length (quoted field_name)) text in
      match index_of COLON after_name with
      | None => None
      | Some j =>
          let v := drop_while is_whitespace (skipn (S j) after_name) in
          match v with
          | c :: body =>
              if Ascii.eqb c DQUOTE then
                match index_of DQUOTE body with
                | None => None
                | Some k => Some (truncate max_len (firstn k body))
                end
              else
                Some (truncate max_len
                        (take_while (fun a => negb (ends_bare_token a)) v))
          | [] => Some (truncate max_len [])
          end
      end
  end.

(** [needle] does not occur in [text] at any position before [n]. *)
Definition no_match_before (needle text : list ascii) (n : nat) : bool :=
  forallb (fun i => negb (is_prefix needle (skipn i text))) (seq 0 n).

(** A bare integer: decimal digits, with an optional minus sign. *)
Definition is_bare_integer (v : list ascii) : bool :=
  match v with
  | [] => false
  | c :: d =>
      if Ascii.eqb c "-"%char
      then negb (Nat.eqb (length d) 0) && forallb isdigit d
      else forallb isdigit v
  end.

(** What may follow a bare token: nothing, or a character that ends it. *)
Definition ends_here (rest : list ascii) : bool :=
  match rest with
  | [] => true
  | c :: _ => ends_bare_token c
  end.

End Reference.

Definition default_json : list ascii :=
  line "{" ++
  line "    'progress': 0," ++
  line "    'status': 'System Ready'," ++
  line "    'step': 'Waiting for update'" ++
  line "}".

(* ===================================================================== *)
(** ** Calls out of the program, and the monad that sequences them *)
(* ===================================================================== *)

Record update_status_t := mk_status {
  progress : Z;
  status : list ascii;
  step : list ascii
}.

Inductive fmode := ModeRb | ModeWb.

(** LVGL objects and timers are opaque handles; [None] is [NULL]. *)
Definition lv_obj := nat.
Definition lv_timer := nat.

Record lv_ui := mk_ui {
  screen_status : option lv_obj;
  screen_step : option lv_obj;
  screen_progress : option lv_obj;
  screen_loading_bar : option lv_obj
}.

Inductive timer_cb := cb_update_tracker_task | cb_simulate_update_cycle.

(** An assignment to one of the file-scope or function-scope statics. *)
Inductive static_write :=
| W_last_modified_time (t : Z)
| W_update_timer (t : option lv_timer)
| W_current_status (s : update_status_t)
| W_last_log_time (t : Z)
| W_update_phase (p : Z).

(** A call with the type of its answer.  [Store] is not a call: it marks an
    assignment to a static, so that the trace shows where it happens with
    respect to the calls. *)
Inductive event : Type -> Type :=
| Stat (path : list ascii) : event (option Z)
    (* [stat]: [None] when it fails, else [st_mtime] *)
| Time : event Z
    (* [time(NULL)], in seconds *)
| Fopen (path : list ascii) (m : fmode) : event bool
    (* [true] when the stream is not [NULL] *)
| Fread (n : nat) : event (list ascii)
    (* the bytes delivered, at most [n] of them are taken *)
| Fwrite (data : list ascii) : event nat
    (* the number of bytes written *)
| Fclose : event unit
| Mkdir (path : list ascii) (mode : nat) : event unit
| Printf (text : list ascii) : event unit
| Label_set_text (o : lv_obj) (text : list ascii) : event unit
| Bar_set_value (o : lv_obj) (v : Z) : event unit
| Timer_create (cb : timer_cb) (period : Z) : event (option lv_timer)
| Timer_set_period (t : lv_timer) (period : Z) : event unit
| Store (w : static_write) : event unit.

Inductive io (A : Type) : Type :=
| Ret (a : A)
| Vis (X : Type) (e : event X) (k : X -> io A).

Arguments Ret {A} a.
Arguments Vis {A X} e k.

Fixpoint bind {A B} (p : io A) (f : A -> io B) : io B :=
  match p with
  | Ret a => f a
  | Vis e k => Vis e (fun x => bind (k x) f)
  end.

Definition call {X} (e : event X) : io X := Vis e (fun x => Ret x).

Declare Scope io_scope.
Delimit Scope io_scope with io.
Notation "x <- p ;; q" := (bind p (fun x => q))
  (at level 61, p at next level, right associativity) : io_scope.
Notation "p ;; q" := (bind p (fun _ => q))
  (at level 61, right associativity) : io_scope.
Open Scope io_scope.

(** One answered call of a run. *)
Inductive entry := Entry (X : Type) (e : event X) (x : X).
Arguments Entry {X} e x.

Definition handler (S : Type) := forall X, event X -> S -> X * S.

Record outcome (A S : Type) := mk_outcome {
  value : A;
  final : S;
  trace : list entry
}.

Arguments mk_outcome {A S} value final trace.
Arguments value {A S} o.
Arguments final {A S} o.
Arguments trace {A S} o.

(** Runs a program against an environment that answers its calls. *)
Fixpoint run {A S} (h : handler S) (p : io A) (s : S) : outcome A S :=
  match p with
  | Ret a => mk_outcome a s []
  | Vis e k =>
      let (x, s1) := h _ e s in
      let r := run h (k x) s1 in
      mk_outcome (value r) (final r) (Entry e x :: trace r)
  end.

(* ===================================================================== *)
(** ** The program *)
(* ===================================================================== *)

(** The two builds that compile the POSIX file layer: the desktop
    simulator ([IS_SIMULATOR] is 1) and the Linux target. *)
Inductive target := SimulatorBuild | LinuxBuild.

Definition IS_SIMULATOR (t : target) : bool :=
  match t with SimulatorBuild => true | LinuxBuild => false end.

Definition UPDATE_JSON_PATH (t : target) : list ascii :=
  match t with
  | SimulatorBuild => lit "current_update_step.json"
  | LinuxBuild => lit "/var/lib/update_tracker/current_update_step.json"
  end.

Definition JSON_BUFFER_SIZE : nat := 512.
Definition DEFAULT_UPDATE_INTERVAL : Z := 2000.

(** The statics of the file, with the two function-scope statics
    [last_log_time] (of [check_update_status]) and [update_phase] (of
    [simulate_update_cycle]). *)
Record statics := mk_statics {
  last_modified_time : Z;
  update_timer : option lv_timer;
  current_status : update_status_t;
  last_log_time : Z;
  update_phase : Z
}.

Definition initial_status : update_status_t :=
  mk_status 0 (lit "System Ready") (lit "Waiting for update").

Definition initial_statics : statics :=
  mk_statics 0 None initial_status 0 0.

Definition apply_write (w : static_write) (g : statics) : statics :=
  match w with
  | W_last_modified_time t =>
      mk_statics t (update_timer g) (current_status g) (last_log_time g)
        (update_phase g)
  | W_update_timer t =>
      mk_statics (last_modified_time g) t (current_status g)
        (last_log_time g) (update_phase g)
  | W_current_status s =>
      mk_statics (last_modified_time g) (update_timer g) s (last_log_time g)
        (update_phase g)
  | W_last_log_time t =>
      mk_statics (last_modified_time g) (update_timer g) (current_status g) t
        (update_phase g)
  | W_update_phase p =>
      mk_statics (last_modified_time g) (update_timer g) (current_status g)
        (last_log_time g) p
  end.

(** The assignment [x = v] to a static: marked in the trace and applied. *)
Definition store (w : static_write) (g : statics) : io statics :=
  call (Store w) ;; Ret (apply_write w g).

(** Lines 107-111. *)
Definition get_file_timestamp (filepath : list ascii) : io Z :=
  r <- call (Stat filepath) ;;
  match r with
  | None => Ret 0%Z
  | Some st_mtime => Ret (int64_wrap st_mtime)
  end.

(** Lines 139-148.  [Some buffer] is the return value [true] with the bytes
    placed in the zeroed buffer, [None] is [false]. *)
Definition read_file_contents (filepath : list ascii) (max_size : nat)
  : io (option (list ascii)) :=
  f <- call (Fopen filepath ModeRb) ;;
  if negb f then Ret None
  else
    data <- call (Fread (max_size - 1)) ;;
    let buffer := firstn (max_size - 1) data in
    let bytes_read := length buffer in
    call Fclose ;;
    Ret (if (0 <? bytes_read)%nat then Some buffer else None).

(** Lines 171-190. *)
Definition write_file_contents (filepath content : list ascii) : io bool :=
  let content := cstring content in
  f <- call (Fopen filepath ModeWb) ;;
  f <- (if negb f then
          call (Mkdir (lit "tmp") 511) ;;
          call (Fopen filepath ModeWb)
        else Ret f) ;;
  if negb f then Ret false
  else
    bytes_written <- call (Fwrite content) ;;
    call Fclose ;;
    Ret (bytes_written =? length content)%nat.

Definition when_present (o : option lv_obj) (f : lv_obj -> io unit)
  : io unit :=
  match o with
  | Some x => f x
  | None => Ret tt
  end.

Section Build.

Variable tgt : target.

Definition msg_waiting : list ascii :=
  lit "Waiting for update status file: " ++ UPDATE_JSON_PATH tgt ++ [LF].

Definition msg_read_error : list ascii :=
  lit "Error: Could not read file " ++ UPDATE_JSON_PATH tgt ++ [LF].

Definition msg_update (st : update_status_t) : list ascii :=
  lit "Update status: " ++ fmt_d (progress st) ++ lit "% - " ++
  status st ++ lit " - " ++ step st ++ [LF].

(** Lines 302-312: the local copy after the three extractions. *)
Definition parse_status (buffer : list ascii) (st : update_status_t)
  : update_status_t :=
  let st :=
    match parse_json_value buffer (lit "progress") 32 with
    | Some value_str => mk_status (atoi value_str) (status st) (step st)
    | None => st
    end in
  let st :=
    match parse_json_value buffer (lit "status") 64 with
    | Some v => mk_status (progress st) v (step st)
    | None => st
    end in
  match parse_json_value buffer (lit "step") 64 with
  | Some v => mk_status (progress st) (status st) v
  | None => st
  end.

(** Lines 317-338. *)
Definition show_status (ui : lv_ui) (st : update_status_t) : io unit :=
  when_present (screen_status ui)
    (fun o => call (Label_set_text o (status st))) ;;
  when_present (screen_step ui)
    (fun o => call (Label_set_text o (step st))) ;;
  when_present (screen_progress ui)
    (fun o =>
       let percentage := snprintf 8 (fmt_d (progress st) ++ lit "%") in
       call (Label_set_text o percentage)) ;;
  when_present (screen_loading_bar ui)
    (fun o => call (Bar_set_value o (progress st))) ;;
  call (Printf (msg_update st)).

(** Lines 260-339. *)
Definition check_update_status (ui : lv_ui) (g : statics) : io statics :=
  let status := current_status g in
  file_time <- get_file_timestamp (UPDATE_JSON_PATH tgt) ;;
  if (file_time =? 0)%Z then
    t <- call Time ;;
    let current_time := int64_wrap (int64_wrap t * 1000) in
    if (10000 <? int64_wrap (current_time - last_log_time g))%Z then
      call (Printf msg_waiting) ;;
      store (W_last_log_time current_time) g
    else Ret g
  else if negb (file_time =? last_modified_time g)%Z then
    g <- store (W_last_modified_time file_time) g ;;
    r <- read_file_contents (UPDATE_JSON_PATH tgt) JSON_BUFFER_SIZE ;;
    match r with
    | None => call (Printf msg_read_error) ;; Ret g
    | Some buffer =>
        let status := parse_status buffer status in
        g <- store (W_current_status status) g ;;
        show_status ui status ;;
        Ret g
    end
  else Ret g.

(** Lines 345-349. *)
Definition update_tracker_task (ui : lv_ui) (g : statics) : io statics :=
  check_update_status ui g.

(** Lines 355-361; [%d] prints the [uint32_t] as an [int]. *)
Definition set_update_polling_interval (interval_ms : Z) (g : statics)
  : io unit :=
  match update_timer g with
  | Some t =>
      call (Timer_set_period t interval_ms) ;;
      call (Printf (lit "Update polling interval set to " ++
                    fmt_d (int_wrap interval_ms) ++ lit " ms" ++ [LF]))
  | None => Ret tt
  end.

(** Lines 367-388. *)
Definition ensure_update_json_exists : io unit :=
  t <- get_file_timestamp (UPDATE_JSON_PATH tgt) ;;
  if negb (t =? 0)%Z then Ret tt
  else
    ok <- write_file_contents (UPDATE_JSON_PATH tgt) default_json ;;
    if negb ok then
      call (Printf (lit "Error: Could not create " ++
                    UPDATE_JSON_PATH tgt ++ [LF]))
    else
      call (Printf (lit "Created default update status file at " ++
                    UPDATE_JSON_PATH tgt ++ [LF])).

Definition update_steps : list (list ascii) :=
  [ lit "Preparing for update";
    lit "Downloading packages";
    lit "Verifying download";
    lit "Installing updates";
    lit "Configuring system";
    lit "Finalizing installation";
    lit "Cleaning up";
    lit "Update complete." ].

Definition num_phases : Z := Z.of_nat (length update_steps).

(** Line 411, before the clamp of line 412. *)
Definition phase_progress (phase : Z) : Z :=
  int_wrap (Z.quot (int_wrap (phase * 100)) num_phases).

Definition simulate_progress (phase : Z) : Z :=
  let progress := phase_progress phase in
  if (100 <? progress)%Z then 100%Z else progress.

(** Lines 415-423. *)
Definition simulate_json_content (phase : Z) : list ascii :=
  snprintf 512
    (line "{" ++
     lit "    'progress': " ++ fmt_d (simulate_progress phase) ++
     line "," ++
     line "    'status': 'System Updating...'," ++
     lit "    'step': '" ++ nth (Z.to_nat phase) update_steps [] ++
     line "'" ++
     line "}").

(** Lines 394-433 (simulator build only). *)
Definition simulate_update_cycle (g : statics) : io statics :=
  let phase := update_phase g in
  write_file_contents (UPDATE_JSON_PATH tgt) (simulate_json_content phase) ;;
  let phase := int_wrap (phase + 1) in
  g <- store (W_update_phase phase) g ;;
  if (num_phases <=? phase)%Z then store (W_update_phase 0) g
  else Ret g.

(** Lines 439-459. *)
Definition custom_init (ui : lv_ui) (g : statics) : io statics :=
  t <- call (Timer_create cb_update_tracker_task DEFAULT_UPDATE_INTERVAL) ;;
  g <- store (W_update_timer t) g ;;
  call (Printf (lit "Update tracker: Monitoring " ++ UPDATE_JSON_PATH tgt ++
                lit " for update status changes" ++ [LF])) ;;
  ensure_update_json_exists ;;
  g <- store (W_last_modified_time 0) g ;;
  g <- check_update_status ui g ;;
  if IS_SIMULATOR tgt then
    call (Timer_create cb_simulate_update_cycle 3000) ;;
    call (Printf (lit "SIMULATOR MODE: Auto-generating update status changes every 3 seconds" ++ [LF])) ;;
    Ret g
  else Ret g.

End Build.

(* ===================================================================== *)
(** ** Observations on traces *)
(* ===================================================================== *)

Definition ascii_list_eqb (a b : list ascii) : bool :=
  if list_eq_dec ascii_dec a b then true else false.

(** A call of [read_file_contents] shows as its [fopen(..., "rb")]. *)
Definition is_read (c : entry) : bool :=
  match c with
  | Entry e _ => match e with Fopen _ ModeRb => true | _ => false end
  end.

(** The assignment [current_status = status] of line 315. *)
Definition is_status_store (c : entry) : bool :=
  match c with
  | Entry e _ =>
      match e with Store (W_current_status _) => true | _ => false end
  end.

Definition is_mtime_store (c : entry) : bool :=
  match c with
  | Entry e _ =>
      match e with Store (W_last_modified_time _) => true | _ => false end
  end.

Definition count (p : entry -> bool) (tr : list entry) : nat :=
  length (filter p tr).

Definition reads (tr : list entry) : nat := count is_read tr.
Definition status_stores (tr : list entry) : nat := count is_status_store tr.

(** Every entry that satisfies [q] comes after one that satisfies [p]. *)
Fixpoint preceded_from (seen : bool) (p q : entry -> bool) (tr : list entry)
  : bool :=
  match tr with
  | [] => true
  | c :: t => (negb (q c) || seen) && preceded_from (seen || p c) p q t
  end.

Definition preceded_by (p q : entry -> bool) (tr : list entry) : bool :=
  preceded_from false p q tr.

(** The value [get_file_timestamp] returns for the status file in the
    environment [(h, s)]: the timestamp a tick started there queries. *)
Definition queried_timestamp {S} (tgt : target) (h : handler S) (s : S) : Z :=
  value (run h (get_file_timestamp (UPDATE_JSON_PATH tgt)) s).

(** The environment after the [stat] of a tick started in [s]. *)
Definition after_stat {S} (tgt : target) (h : handler S) (s : S) : S :=
  snd (h _ (Stat (UPDATE_JSON_PATH tgt)) s).

(** The environment in which a tick started in [s] calls
    [read_file_contents], when it has found a new, non-zero timestamp: the
    one left by the [stat] and by the assignment to [last_modified_time]. *)
Definition env_at_read {S} (tgt : target) (h : handler S) (s : S) : S :=
  snd (h _ (Store (W_last_modified_time (queried_timestamp tgt h s)))
         (after_stat tgt h s)).

(** What that call of [read_file_contents] returns. *)
Definition tick_read {S} (tgt : target) (h : handler S) (s : S)
  : option (list ascii) :=
  value (run h (read_file_contents (UPDATE_JSON_PATH tgt) JSON_BUFFER_SIZE)
           (env_at_read tgt h s)).

(** The value of [file_time] for an answer of [stat]. *)
Definition stat_value (a : option Z) : Z :=
  match a with
  | None => 0%Z
  | Some st_mtime => int64_wrap st_mtime
  end.

(** Every [stat] of the trace found the file absent. *)
Definition stat_absent (c : entry) : bool :=
  match c with
  | Entry e x =>
      match e in event X return X -> bool with
      | Stat _ => fun a => (stat_value a =? 0)%Z
      | _ => fun _ => true
      end x
  end.

(** The clock answers of the trace are seconds between 0 and 2^50, so that
    the millisecond arithmetic of lines 277-279 stays inside [int64_t]. *)
Definition time_in_range (c : entry) : bool :=
  match c with
  | Entry e x =>
      match e in event X return X -> bool with
      | Time => fun t => (0 <=? t)%Z && (t <? 2 ^ 50)%Z
      | _ => fun _ => true
      end x
  end.

(** The values of [current_time] (milliseconds) at which the diagnostic
    [msg] was printed: each [printf] of it is paired with the latest clock
    answer before it ([now] when there is none). *)
Fixpoint log_times (msg : list ascii) (now : Z) (tr : list entry) : list Z :=
  match tr with
  | [] => []
  | Entry e x :: rest =>
      match e in event X return X -> list Z with
      | Time => fun t => log_times msg (int64_wrap (int64_wrap t * 1000)) rest
      | Printf text => fun _ =>
          if ascii_list_eqb text msg then now :: log_times msg now rest
          else log_times msg now rest
      | _ => fun _ => log_times msg now rest
      end x
  end.

(** Each time of the list is more than [gap] after the one before it,
    starting from [prev]. *)
Fixpoint spaced (gap prev : Z) (l : list Z) : Prop :=
  match l with
  | [] => True
  | t :: rest => (gap < t - prev)%Z /\ spaced gap t rest
  end.

(** The payloads handed to [fwrite], in order. *)
Fixpoint written (tr : list entry) : list (list ascii) :=
  match tr with
  | [] => []
  | Entry e _ :: rest =>
      match e with
      | Fwrite data => data :: written rest
      | _ => written rest
      end
  end.

(** An [fopen(..., "wb")] that returned a stream. *)
Definition is_open_for_write (c : entry) : bool :=
  match c with
  | Entry e x =>
      match e in event X return X -> bool with
      | Fopen _ ModeWb => fun ok => ok
      | _ => fun _ => false
      end x
  end.

(** An [fwrite] that reported the whole length of what it was given. *)
Definition is_complete_write (c : entry) : bool :=
  match c with
  | Entry e x =>
      match e in event X return X -> bool with
      | Fwrite data => fun n => (n =? length data)%nat
      | _ => fun _ => false
      end x
  end.

(** The directories handed to [mkdir], in order. *)
Fixpoint mkdirs (tr : list entry) : list (list ascii) :=
  match tr with
  | [] => []
  | Entry e _ :: rest =>
      match e with
      | Mkdir p _ => p :: mkdirs rest
      | _ => mkdirs rest
      end
  end.

(** What a payload carries, as the watcher reads it back: the progress
    (lines 302-304) and the step label (line 310). *)
Definition written_progress (payload : list ascii) : option Z :=
  option_map atoi (parse_json_value payload (lit "progress") 32).

Definition written_step (payload : list ascii) : option (list ascii) :=
  parse_json_value payload (lit "step") 64.

(** A call that can put a time into [log_times msg]. *)
Definition is_time_or_log (msg : list ascii) (c : entry) : bool :=
  match c with
  | Entry e _ =>
      match e with
      | Time => true
      | Printf text => ascii_list_eqb text msg
      | _ => false
      end
  end.

(** A program that cannot make a call satisfying [bad], whatever the
    answers. *)
Fixpoint never {A} (bad : entry -> bool) (p : io A) : Prop :=
  match p with
  | Ret _ => True
  | Vis e k => forall x, bad (Entry e x) = false /\ never bad (k x)
  end.

(** The timer of the poll controller firing [n] times. *)
Fixpoint poll_ticks (tgt : target) (n : nat) (ui : lv_ui) (g : statics)
  : io statics :=
  match n with
  | O => Ret g
  | S n' => g1 <- update_tracker_task tgt ui g ;; poll_ticks tgt n' ui g1
  end.

(** The timer of the simulator firing [n] times. *)
Fixpoint sim_ticks (tgt : target) (n : nat) (g : statics) : io statics :=
  match n with
  | O => Ret g
  | S n' => g1 <- simulate_update_cycle tgt g ;; sim_ticks tgt n' g1
  end.

(* ===================================================================== *)
(** ** A small file system to run the program against *)
(* ===================================================================== *)

Module MemFS.

Record file := mk_file { f_mtime : Z; f_data : list ascii }.

Record os := mk_os {
  files : list (list ascii * file);
  dirs : list (list ascii);          (* the directories that exist *)
  clock : Z;                         (* seconds *)
  opened : option (list ascii);      (* the path of the open stream *)
  stdout : list (list ascii)
}.

Definition path_eqb := ascii_list_eqb.

Fixpoint lookup (p : list ascii) (fs : list (list ascii * file))
  : option file :=
  match fs with
  | [] => None
  | (q, f) :: t => if path_eqb p q then Some f else lookup p t
  end.

Fixpoint update (p : list ascii) (f : file) (fs : list (list ascii * file))
  : list (list ascii * file) :=
  match fs with
  | [] => [(p, f)]
  | (q, g) :: t => if path_eqb p q then (p, f) :: t else (q, g) :: update p f t
  end.

(** The directory part of a path; a path without a slash is in the
    working directory. *)
Definition dirname (p : list ascii) : list ascii :=
  match strchr (rev p) "/"%char with
  | None => lit "."
  | Some r => match rev (tl r) with [] => lit "/" | d => d end
  end.

Definition dir_exists (o : os) (d : list ascii) : bool :=
  path_eqb d (lit ".") || path_eqb d (lit "/") || existsb (path_eqb d) (dirs o).

Definition set_files o fs := mk_os fs (dirs o) (clock o) (opened o) (stdout o).
Definition set_opened o p := mk_os (files o) (dirs o) (clock o) p (stdout o).

Definition handle : handler os :=
  fun X (e : event X) (o : os) =>
    match e in event X return X * os with
    | Stat p => (option_map f_mtime (lookup p (files o)), o)
    | Time => (clock o, o)
    | Fopen p ModeRb =>
        match lookup p (files o) with
        | Some _ => (true, set_opened o (Some p))
        | None => (false, o)
        end
    | Fopen p ModeWb =>
        if dir_exists o (dirname p) then
          (true, set_opened (set_files o (update p (mk_file (clock o) []) (files o)))
                   (Some p))
        else (false, o)
    | Fread n =>
        match opened o with
        | Some p =>
            match lookup p (files o) with
            | Some f => (firstn n (f_data f), o)
            | None => ([], o)
            end
        | None => ([], o)
        end
    | Fwrite data =>
        match opened o with
        | Some p =>
            (length data,
             set_files o (update p (mk_file (clock o) data) (files o)))
        | None => (O, o)
        end
    | Fclose => (tt, set_opened o None)
    | Mkdir p _ =>
        (tt, if dir_exists o (dirname p)
             then mk_os (files o) (p :: dirs o) (clock o) (opened o) (stdout o)
             else o)
    | Printf text =>
        (tt, mk_os (files o) (dirs o) (clock o) (opened o) (stdout o ++ [text]))
    | Label_set_text _ _ => (tt, o)
    | Bar_set_value _ _ => (tt, o)
    | Timer_create _ _ => (Some O, o)
    | Timer_set_period _ _ => (tt, o)
    | Store _ => (tt, o)
    end.

(** The same environment with a clock that moves on by [dt] seconds each
    time it is asked. *)
Definition handle_advancing (dt : Z) : handler os :=
  fun X (e : event X) (o : os) =>
    match e in event X return X * os with
    | Time =>
        (clock o, mk_os (files o) (dirs o) (clock o + dt) (opened o) (stdout o))
    | e' => handle _ e' o
    end.

Definition empty_at (t : Z) : os := mk_os [] [] t None [].

Definition with_file (p : list ascii) (mtime : Z) (data : list ascii) (o : os)
  : os :=
  set_files o (update p (mk_file mtime data) (files o)).

End MemFS.

Definition no_ui : lv_ui := mk_ui None None None None.
Definition full_ui : lv_ui := mk_ui (Some 1%nat) (Some 2%nat) (Some 3%nat) (Some 4%nat).

(** A status file that holds a progress field only. *)
Definition progress_only_json : list ascii := lit "{ 'progress': 42 }".

(** A file that [stat] sees but that cannot be opened (it is removed between
    the two calls): the tick fails to read, and the next tick on the same
    timestamp does not try again. *)
Definition vanishing_handle : handler MemFS.os :=
  fun X (e : event X) (o : MemFS.os) =>
    match e in event X return X * MemFS.os with
    | Stat p => (Some 1700000005%Z, o)
    | e' => MemFS.handle _ e' o
    end.

(* ===================================================================== *)
(** ** Further observations: schedules, streams, display, timers *)
(* ===================================================================== *)

(** The two periodic tasks; a schedule is the order in which the LVGL timer
    handler runs them. *)
Inductive task := PollTick | SimTick.

Definition run_task (tgt : target) (ui : lv_ui) (t : task) (g : statics)
  : io statics :=
  match t with
  | PollTick => update_tracker_task tgt ui g
  | SimTick => simulate_update_cycle tgt g
  end.

Fixpoint schedule (tgt : target) (ui : lv_ui) (l : list task) (g : statics)
  : io statics :=
  match l with
  | [] => Ret g
  | t :: rest => g1 <- run_task tgt ui t g ;; schedule tgt ui rest g1
  end.

(** [text] contains [needle]. *)
Definition occurs (needle text : list ascii) : Prop :=
  exists pre post, text = pre ++ needle ++ post.

(** The stream discipline of stdio, followed along a trace: [Some b] when
    it is respected, with [b] telling whether a stream is open at the end;
    [None] when a stream is opened while one is open, or read, written or
    closed while none is. *)
Fixpoint stream_state (is_open : bool) (tr : list entry) : option bool :=
  match tr with
  | [] => Some is_open
  | Entry e x :: rest =>
      match e in event X return X -> option bool with
      | Fopen _ _ => fun ok =>
          if is_open then None else stream_state ok rest
      | Fread _ => fun _ => if is_open then stream_state true rest else None
      | Fwrite _ => fun _ => if is_open then stream_state true rest else None
      | Fclose => fun _ => if is_open then stream_state false rest else None
      | _ => fun _ => stream_state is_open rest
      end x
  end.

Definition is_stream_call (c : entry) : bool :=
  match c with
  | Entry e _ =>
      match e with
      | Fopen _ _ | Fread _ | Fwrite _ | Fclose => true
      | _ => false
      end
  end.

(** The status record fits the struct of lines 66-70: an [int] and two C
    strings of at most 63 bytes. *)
Definition is_c_text (v : list ascii) : bool :=
  forallb (fun c => negb (Ascii.eqb c NUL)) v.

Definition status_fits (st : update_status_t) : Prop :=
  (- 2 ^ 31 <= progress st < 2 ^ 31)%Z /\
  length (status st) <= 63 /\ is_c_text (status st) = true /\
  length (step st) <= 63 /\ is_c_text (step st) = true.

(** The whole life of the watcher: [custom_init], then the timers firing
    in the order [l]. *)
Definition lifetime (tgt : target) (ui : lv_ui) (l : list task) (g : statics)
  : io statics :=
  g1 <- custom_init tgt ui g ;; schedule tgt ui l g1.

(** The values of [file_time] the trace saw, in order. *)
Fixpoint stat_values (tr : list entry) : list Z :=
  match tr with
  | [] => []
  | Entry e x :: rest =>
      match e in event X return X -> list Z with
      | Stat _ => fun a => stat_value a :: stat_values rest
      | _ => fun _ => stat_values rest
      end x
  end.

(** The last non-zero value of a list of timestamps, [d] if there is
    none. *)
Definition last_nonzero (d : Z) (l : list Z) : Z :=
  fold_left (fun acc t => if (t =? 0)%Z then acc else t) l d.

(** The timers asked of [lv_timer_create]: callback, period and the handle
    returned. *)
Fixpoint timers_created (tr : list entry)
  : list (timer_cb * Z * option lv_timer) :=
  match tr with
  | [] => []
  | Entry e x :: rest =>
      match e in event X return X -> list (timer_cb * Z * option lv_timer) with
      | Timer_create cb period => fun t => (cb, period, t) :: timers_created rest
      | _ => fun _ => timers_created rest
      end x
  end.

(** What reaches the display. *)
Inductive ui_call :=
| UiLabel (o : lv_obj) (text : list ascii)
| UiBar (o : lv_obj) (v : Z).

Fixpoint ui_calls (tr : list entry) : list ui_call :=
  match tr with
  | [] => []
  | Entry e _ :: rest =>
      match e with
      | Label_set_text o text => UiLabel o text :: ui_calls rest
      | Bar_set_value o v => UiBar o v :: ui_calls rest
      | _ => ui_calls rest
      end
  end.

(** The statuses assigned to [current_status], in order. *)
Fixpoint stored_statuses (tr : list entry) : list update_status_t :=
  match tr with
  | [] => []
  | Entry e _ :: rest =>
      match e with
      | Store (W_current_status st) => st :: stored_statuses rest
      | _ => stored_statuses rest
      end
  end.

Definition on_widget (o : option lv_obj) (f : lv_obj -> ui_call)
  : list ui_call :=
  match o with
  | Some x => [f x]
  | None => []
  end.

(** A status as the widgets that exist show it: status line, step line,
    percentage (in its 8-byte buffer) and bar. *)
Definition ui_view (ui : lv_ui) (st : update_status_t) : list ui_call :=
  on_widget (screen_status ui) (fun o => UiLabel o (status st)) ++
  on_widget (screen_step ui) (fun o => UiLabel o (step st)) ++
  on_widget (screen_progress ui)
    (fun o => UiLabel o (snprintf 8 (fmt_d (progress st) ++ lit "%"))) ++
  on_widget (screen_loading_bar ui) (fun o => UiBar o (progress st)).

Definition ui_entry (c : ui_call) : entry :=
  match c with
  | UiLabel o text => Entry (Label_set_text o text) tt
  | UiBar o v => Entry (Bar_set_value o v) tt
  end.

(** Calls that change the file system. *)
Definition is_fs_change (c : entry) : bool :=
  match c with
  | Entry e _ =>
      match e with
      | Fopen _ ModeWb | Fwrite _ | Mkdir _ _ => true
      | _ => false
      end
  end.

(** The calls the simulator task is made of: opening the file for writing,
    [mkdir], [fwrite], [fclose], and the assignment to [update_phase]. *)
Definition is_simulator_call (c : entry) : bool :=
  match c with
  | Entry e _ =>
      match e with
      | Fopen _ ModeWb | Fwrite _ | Mkdir _ _ | Fclose => true
      | Store (W_update_phase _) => true
      | _ => false
      end
  end.

(** All statics but [update_phase] agree. *)
Definition same_but_phase (g g' : statics) : Prop :=
  last_modified_time g' = last_modified_time g /\
  update_timer g' = update_timer g /\
  current_status g' = current_status g /\
  last_log_time g' = last_log_time g.

(** The three ways the scan can fail once the key is located: no colon
    after it, or a colon, white space and an opening quote that is never
    closed. *)
Definition fails_after (post : list ascii) : Prop :=
  forallb (fun a => negb (Ascii.eqb a COLON)) post = true \/
  exists gap ws body,
    post = gap ++ [COLON] ++ ws ++ [DQUOTE] ++ body /\
    forallb (fun a => negb (Ascii.eqb a COLON)) gap = true /\
    forallb Reference.is_whitespace ws = true /\
    forallb (fun a => negb (Ascii.eqb a DQUOTE)) body = true.

(** The shapes a poll tick can take: the statics it leaves and the calls
    it makes, by the branch of [check_update_status] that is taken (lines
    271-284, 287-293, 296-299 and 302-338). *)
Inductive tick_trace (tgt : target) (ui : lv_ui) (g : statics)
  : statics -> list entry -> Prop :=
| tick_absent_quiet (a : option Z) (t : Z) :
    stat_value a = 0%Z ->
    (10000 <? int64_wrap (int64_wrap (int64_wrap t * 1000) - last_log_time g))%Z
      = false ->
    tick_trace tgt ui g g
      [Entry (Stat (UPDATE_JSON_PATH tgt)) a; Entry Time t]
| tick_absent_logged (a : option Z) (t : Z) :
    stat_value a = 0%Z ->
    (10000 <? int64_wrap (int64_wrap (int64_wrap t * 1000) - last_log_time g))%Z
      = true ->
    tick_trace tgt ui g
      (apply_write (W_last_log_time (int64_wrap (int64_wrap t * 1000))) g)
      [Entry (Stat (UPDATE_JSON_PATH tgt)) a; Entry Time t;
       Entry (Printf (msg_waiting tgt)) tt;
       Entry (Store (W_last_log_time (int64_wrap (int64_wrap t * 1000)))) tt]
| tick_same (a : option Z) :
    stat_value a <> 0%Z ->
    stat_value a = last_modified_time g ->
    tick_trace tgt ui g g [Entry (Stat (UPDATE_JSON_PATH tgt)) a]
| tick_open_failed (a : option Z) :
    stat_value a <> 0%Z ->
    stat_value a <> last_modified_time g ->
    tick_trace tgt ui g
      (apply_write (W_last_modified_time (stat_value a)) g)
      [Entry (Stat (UPDATE_JSON_PATH tgt)) a;
       Entry (Store (W_last_modified_time (stat_value a))) tt;
       Entry (Fopen (UPDATE_JSON_PATH tgt) ModeRb) false;
       Entry (Printf (msg_read_error tgt)) tt]
| tick_read_nothing (a : option Z) (data : list ascii) :
    stat_value a <> 0%Z ->
    stat_value a <> last_modified_time g ->
    firstn (JSON_BUFFER_SIZE - 1) data = [] ->
    tick_trace tgt ui g
      (apply_write (W_last_modified_time (stat_value a)) g)
      [Entry (Stat (UPDATE_JSON_PATH tgt)) a;
       Entry (Store (W_last_modified_time (stat_value a))) tt;
       Entry (Fopen (UPDATE_JSON_PATH tgt) ModeRb) true;
       Entry (Fread (JSON_BUFFER_SIZE - 1)) data;
       Entry Fclose tt;
       Entry (Printf (msg_read_error tgt)) tt]
| tick_read_ok (a : option Z) (data : list ascii) :
    stat_value a <> 0%Z ->
    stat_value a <> last_modified_time g ->
    firstn (JSON_BUFFER_SIZE - 1) data <> [] ->
    let st := parse_status (firstn (JSON_BUFFER_SIZE - 1) data)
                (current_status g) in
    tick_trace tgt ui g
      (apply_write (W_current_status st)
         (apply_write (W_last_modified_time (stat_value a)) g))
      ([Entry (Stat (UPDATE_JSON_PATH tgt)) a;
        Entry (Store (W_last_modified_time (stat_value a))) tt;
        Entry (Fopen (UPDATE_JSON_PATH tgt) ModeRb) true;
        Entry (Fread (JSON_BUFFER_SIZE - 1)) data;
        Entry Fclose tt;
        Entry (Store (W_current_status st)) tt] ++
       map ui_entry (ui_view ui st) ++
       [Entry (Printf (msg_update st)) tt]).

(** The shapes a simulator tick can take, by the outcome of the two opens
    of [write_file_contents] (lines 171-190). *)
Inductive write_trace (p content : list ascii) : bool -> list entry -> Prop :=
| write_first_open (n : nat) :
    write_trace p content (n =? length (cstring content))%nat
      [Entry (Fopen p ModeWb) true;
       Entry (Fwrite (cstring content)) n; Entry Fclose tt]
| write_second_open (n : nat) :
    write_trace p content (n =? length (cstring content))%nat
      [Entry (Fopen p ModeWb) false; Entry (Mkdir (lit "tmp") 511) tt;
       Entry (Fopen p ModeWb) true;
       Entry (Fwrite (cstring content)) n; Entry Fclose tt]
| write_no_open :
    write_trace p content false
      [Entry (Fopen p ModeWb) false; Entry (Mkdir (lit "tmp") 511) tt;
       Entry (Fopen p ModeWb) false].

(** Lines 428-432. *)
Definition next_phase (phase : Z) : Z :=
  let phase := int_wrap (phase + 1) in
  if (num_phases <=? phase)%Z then 0%Z else phase.

(** The text starts the way [atoi] can read a number from: white space, a
    sign or a digit. *)
Definition starts_numeric (v : list ascii) : bool :=
  match v with
  | [] => false
  | c :: _ =>
      isspace c || isdigit c || Ascii.eqb c "-"%char || Ascii.eqb c "+"%char
  end.

(** An [fopen(..., "wb")], whatever it returned. *)
Definition is_open_wb (c : entry) : bool :=
  match c with
  | Entry e _ => match e with Fopen _ ModeWb => true | _ => false end
  end.

(** How many times each task fires in a schedule. *)
Definition is_poll (t : task) : bool :=
  match t with PollTick => true | SimTick => false end.

Definition polls (l : list task) : nat := length (filter is_poll l).

Definition sims (l : list task) : nat :=
  length (filter (fun t => negb (is_poll t)) l).

(* ===================================================================== *)
(** ** Sanity checks of the model on concrete inputs *)
(* ===================================================================== *)

Example parse_default_progress :
  parse_json_value default_json (lit "progress") 32 = Some (lit "0").
Proof. reflexivity. Qed.

Example parse_default_status :
  parse_json_value default_json (lit "status") 64 = Some (lit "System Ready").
Proof. reflexivity. Qed.

Example parse_default_step :
  parse_json_value default_json (lit "step") 64
  = Some (lit "Waiting for update").
Proof. reflexivity. Qed.

Example atoi_examples :
  atoi (lit "0") = 0%Z /\ atoi (lit "  -42x") = (-42)%Z /\
  atoi (lit "87") = 87%Z /\ atoi (lit "abc") = 0%Z /\
  atoi (lit "4294967297") = 1%Z /\
  atoi (lit "99999999999999999999") = (-1)%Z /\
  atoi (lit "-99999999999999999999") = 0%Z.
Proof. repeat split; reflexivity. Qed.

(** Bootstrap on an empty working directory, then the first poll: the file
    is created with the default content and read back. *)
Example bootstrap_then_poll :
  let r := run MemFS.handle (custom_init SimulatorBuild full_ui initial_statics)
             (MemFS.empty_at 1700000000) in
  current_status (value r) = initial_status /\
  last_modified_time (value r) = 1700000000%Z /\
  reads (trace r) = 1%nat /\
  option_map MemFS.f_data
    (MemFS.lookup (UPDATE_JSON_PATH SimulatorBuild) (MemFS.files (final r)))
  = Some default_json.
Proof. vm_compute. repeat split; reflexivity. Qed.

(* ===================================================================== *)
(** ** Running programs: general facts *)
(* ===================================================================== *)

Lemma run_bind {A B S} (h : handler S) (p : io A) (f : A -> io B) s :
  run h (bind p f) s =
  let r1 := run h p s in
  let r2 := run h (f (value r1)) (final r1) in
  mk_outcome (value r2) (final r2) (trace r1 ++ trace r2).
Proof.
  revert s. induction p as [a | X e k IH]; intros s; simpl.
  - destruct (run h (f a) s); reflexivity.
  - destruct (h X e s) as [x s1]. rewrite IH. reflexivity.
Qed.

Lemma run_ret {A S} (h : handler S) (a : A) s :
  run h (Ret a) s = mk_outcome a s [].
Proof. reflexivity. Qed.

Lemma run_call {X S} (h : handler S) (e : event X) s :
  run h (call e) s =
  mk_outcome (fst (h _ e s)) (snd (h _ e s)) [Entry e (fst (h _ e s))].
Proof. simpl. destruct (h X e s); reflexivity. Qed.

Lemma run_store {S} (h : handler S) (w : static_write) g s :
  run h (store w g) s =
  mk_outcome (apply_write w g) (snd (h _ (Store w) s)) [Entry (Store w) tt].
Proof.
  unfold store. simpl. destruct (h unit (Store w) s) as [[] s1]. reflexivity.
Qed.

Lemma count_app p (a b : list entry) :
  count p (a ++ b) = (count p a + count p b)%nat.
Proof. unfold count. rewrite filter_app, length_app. reflexivity. Qed.

Lemma never_bind {A B} bad (p : io A) (f : A -> io B) :
  never bad p -> (forall a, never bad (f a)) -> never bad (bind p f).
Proof.
  induction p as [a | X e k IH]; simpl; intros Hp Hf; [apply Hf |].
  intros x. destruct (Hp x) as [H1 H2]. split; [exact H1 | apply IH; assumption].
Qed.

Lemma never_run {A S} bad (p : io A) (h : handler S) s :
  never bad p -> filter bad (trace (run h p s)) = [].
Proof.
  revert s. induction p as [a | X e k IH]; simpl; intros s Hp; [reflexivity |].
  destruct (h X e s) as [x s1]. simpl.
  destruct (Hp x) as [H1 H2]. rewrite H1. apply IH, H2.
Qed.

Lemma never_count {A S} bad (p : io A) (h : handler S) s :
  never bad p -> count bad (trace (run h p s)) = O.
Proof. intros H. unfold count. rewrite never_run by assumption. reflexivity. Qed.

Lemma show_status_never bad ui st :
  (forall o text, bad (Entry (Label_set_text o text) tt) = false) ->
  (forall o v, bad (Entry (Bar_set_value o v) tt) = false) ->
  bad (Entry (Printf (msg_update st)) tt) = false ->
  never bad (show_status ui st).
Proof.
  intros Hl Hb Hp. unfold show_status.
  destruct ui as [[a|] [b|] [c|] [d|]]; simpl;
    repeat match goal with
           | |- forall x : unit, _ => intros []
           | |- _ /\ _ => split
           | |- True => exact I
           end; auto.
Qed.

Lemma unit_tt (u : unit) : u = tt.
Proof. destruct u; reflexivity. Qed.

(* ===================================================================== *)
(** ** One poll tick, case by case *)
(* ===================================================================== *)

Section Tick.

Variable tgt : target.
Variable S : Type.
Variable h : handler S.

Let path := UPDATE_JSON_PATH tgt.

Lemma run_get_file_timestamp s :
  run h (get_file_timestamp path) s =
  mk_outcome (queried_timestamp tgt h s) (after_stat tgt h s)
    [Entry (Stat path) (fst (h _ (Stat path) s))].
Proof.
  unfold queried_timestamp, after_stat, get_file_timestamp. fold path.
  simpl. destruct (h _ (Stat path) s) as [[m|] s1]; reflexivity.
Qed.

Lemma tick_absent ui g s :
  queried_timestamp tgt h s = 0%Z ->
  let s1 := after_stat tgt h s in
  let t := fst (h _ Time s1) in
  let s2 := snd (h _ Time s1) in
  let now := int64_wrap (int64_wrap t * 1000) in
  run h (check_update_status tgt ui g) s =
  if (10000 <? int64_wrap (now - last_log_time g))%Z then
    mk_outcome (apply_write (W_last_log_time now) g)
      (snd (h _ (Store (W_last_log_time now))
              (snd (h _ (Printf (msg_waiting tgt)) s2))))
      [Entry (Stat path) (fst (h _ (Stat path) s)); Entry Time t;
       Entry (Printf (msg_waiting tgt)) tt;
       Entry (Store (W_last_log_time now)) tt]
  else
    mk_outcome g s2 [Entry (Stat path) (fst (h _ (Stat path) s)); Entry Time t].
Proof.
  intros Hts. unfold check_update_status. fold path.
  rewrite run_bind, run_get_file_timestamp. cbn [value final trace].
  rewrite Hts. cbn [Z.eqb].
  rewrite run_bind, run_call. cbn [value final trace].
  destruct (10000 <? _)%Z.
  - rewrite run_bind, run_call. cbn [value final trace].
    rewrite run_store. cbn [value final trace app].
    rewrite (unit_tt (fst (h _ (Printf _) _))). reflexivity.
  - reflexivity.
Qed.

Lemma tick_unchanged ui g s :
  queried_timestamp tgt h s <> 0%Z ->
  queried_timestamp tgt h s = last_modified_time g ->
  run h (check_update_status tgt ui g) s =
  mk_outcome g (after_stat tgt h s) [Entry (Stat path) (fst (h _ (Stat path) s))].
Proof.
  intros Hnz Heq. unfold check_update_status. fold path.
  rewrite run_bind, run_get_file_timestamp. cbn [value final trace].
  destruct (Z.eqb_spec (queried_timestamp tgt h s) 0); [contradiction |].
  rewrite Heq, Z.eqb_refl. reflexivity.
Qed.

Lemma tick_changed ui g s :
  let ts := queried_timestamp tgt h s in
  ts <> 0%Z ->
  ts <> last_modified_time g ->
  let s2 := snd (h _ (Store (W_last_modified_time ts)) (after_stat tgt h s)) in
  let g1 := apply_write (W_last_modified_time ts) g in
  let rr := run h (read_file_contents path JSON_BUFFER_SIZE) s2 in
  run h (check_update_status tgt ui g) s =
  match value rr with
  | None =>
      mk_outcome g1 (snd (h _ (Printf (msg_read_error tgt)) (final rr)))
        (Entry (Stat path) (fst (h _ (Stat path) s)) ::
         Entry (Store (W_last_modified_time ts)) tt ::
         trace rr ++ [Entry (Printf (msg_read_error tgt)) tt])
  | Some buffer =>
      let st := parse_status buffer (current_status g) in
      let s3 := snd (h _ (Store (W_current_status st)) (final rr)) in
      let ru := run h (show_status ui st) s3 in
      mk_outcome (apply_write (W_current_status st) g1) (final ru)
        (Entry (Stat path) (fst (h _ (Stat path) s)) ::
         Entry (Store (W_last_modified_time ts)) tt ::
         trace rr ++ Entry (Store (W_current_status st)) tt :: trace ru)
  end.
Proof.
  intros ts Hnz Hne s2 g1 rr. unfold check_update_status. fold path.
  rewrite run_bind, run_get_file_timestamp. cbn [value final trace].
  fold ts.
  destruct (Z.eqb_spec ts 0); [contradiction |].
  destruct (Z.eqb_spec ts (last_modified_time g)); [contradiction |].
  cbn [negb].
  rewrite run_bind, run_store. cbn [value final trace].
  fold s2 g1.
  rewrite run_bind. fold rr. cbn [value final trace].
  destruct (value rr) as [buffer |].
  - rewrite run_bind, run_store. cbn [value final trace].
    rewrite run_bind. cbn [value final trace run].
    rewrite app_nil_r. reflexivity.
  - rewrite run_bind, run_call. cbn [value final trace run].
    rewrite (unit_tt (fst (h _ (Printf _) _))). reflexivity.
Qed.

End Tick.

Arguments tick_absent tgt {S} h ui g s _.
Arguments tick_unchanged tgt {S} h ui g s _ _.
Arguments tick_changed tgt {S} h ui g s _ _.
Arguments run_get_file_timestamp tgt {S} h s.

Lemma run_read_file_contents {S} (h : handler S) p n s :
  run h (read_file_contents p n) s =
  let (f, s1) := h _ (Fopen p ModeRb) s in
  if f then
    let (data, s2) := h _ (Fread (n - 1)) s1 in
    let buffer := firstn (n - 1) data in
    mk_outcome (if (0 <? length buffer)%nat then Some buffer else None)
      (snd (h _ Fclose s2))
      [Entry (Fopen p ModeRb) true; Entry (Fread (n - 1)) data; Entry Fclose tt]
  else mk_outcome None s1 [Entry (Fopen p ModeRb) false].
Proof.
  unfold read_file_contents. simpl.
  destruct (h bool (Fopen p ModeRb) s) as [[|] s1]; simpl; [| reflexivity].
  destruct (h (list ascii) (Fread (n - 1)) s1) as [data s2]. simpl.
  destruct (h unit Fclose s2) as [[] s3]. reflexivity.
Qed.

Lemma read_file_contents_trace {S} (h : handler S) p n s :
  let tr := trace (run h (read_file_contents p n) s) in
  reads tr = 1%nat /\ status_stores tr = 0%nat /\
  preceded_from true is_read is_status_store tr = true /\
  (exists b rest, tr = Entry (Fopen p ModeRb) b :: rest).
Proof.
  rewrite run_read_file_contents.
  destruct (h bool (Fopen p ModeRb) s) as [[|] s1].
  - destruct (h (list ascii) (Fread (n - 1)) s1) as [data s2].
    cbn. repeat split; eauto.
  - cbn. repeat split; eauto.
Qed.

Lemma preceded_from_true_never p q (tr : list entry) :
  preceded_from true p q tr = true.
Proof. induction tr as [| c t IH]; simpl; [reflexivity |].
  rewrite orb_true_r. exact IH.
Qed.

Lemma show_status_quiet {S} (h : handler S) ui st s :
  let tr := trace (run h (show_status ui st) s) in
  reads tr = 0%nat /\ status_stores tr = 0%nat.
Proof.
  split; apply never_count; apply show_status_never; reflexivity.
Qed.

(** C1, the claim as written, at a tick that finds the file gone after it
    had been read: the queried timestamp (0) differs from the stored one
    (5), and the tick reads nothing. *)
Lemma C1_counterexample_file_removed :
  let g := apply_write (W_last_modified_time 5) initial_statics in
  let s := MemFS.empty_at 1700000000 in
  let r := run MemFS.handle (check_update_status LinuxBuild no_ui g) s in
  queried_timestamp LinuxBuild MemFS.handle s <> last_modified_time g /\
  reads (trace r) = 0%nat.
Proof. vm_compute. split; [discriminate | reflexivity]. Qed.

(** C1 (amended).  In every poll tick: when the queried timestamp equals
    [last_modified_time], or is 0 (file absent), no read is made and
    [current_status] is left as it was; when it is non-zero and differs,
    [read_file_contents] is called exactly once, and [current_status] is
    assigned at most once, after that call.  No tick reads twice. *)
Theorem poll_tick_reads_at_most_once :
  forall (tgt : target) (S : Type) (h : handler S) (s : S) (ui : lv_ui)
         (g : statics),
    let ts := queried_timestamp tgt h s in
    let r := run h (check_update_status tgt ui g) s in
    ((ts = last_modified_time g \/ ts = 0%Z) ->
       reads (trace r) = 0%nat /\ status_stores (trace r) = 0%nat /\
       current_status (value r) = current_status g) /\
    (ts <> last_modified_time g -> ts <> 0%Z ->
       reads (trace r) = 1%nat /\ (status_stores (trace r) <= 1)%nat /\
       preceded_by is_read is_status_store (trace r) = true) /\
    (reads (trace r) <= 1)%nat.
Proof.
  intros tgt S h s ui g ts r.
  assert (Hsame : ts = last_modified_time g \/ ts = 0%Z ->
            reads (trace r) = 0%nat /\ status_stores (trace r) = 0%nat /\
            current_status (value r) = current_status g).
  { intros Hcase. subst r.
    destruct (Z.eq_dec ts 0) as [Hz | Hnz].
    - rewrite (tick_absent tgt h ui g s Hz).
      destruct (10000 <? _)%Z; cbn; auto.
    - destruct Hcase as [Heq | Hz]; [| contradiction].
      rewrite (tick_unchanged tgt h ui g s Hnz Heq). cbn. auto. }
  assert (Hread : ts <> last_modified_time g -> ts <> 0%Z ->
            reads (trace r) = 1%nat /\ (status_stores (trace r) <= 1)%nat /\
            preceded_by is_read is_status_store (trace r) = true).
  { intros Hne Hnz. subst r.
    rewrite (tick_changed tgt h ui g s Hnz Hne). fold ts.
    set (s2 := snd (h unit (Store (W_last_modified_time ts)) (after_stat tgt h s))).
    destruct (read_file_contents_trace h (UPDATE_JSON_PATH tgt) JSON_BUFFER_SIZE s2)
      as (Hr & Hs & Hp & b & rest & Htr).
    remember (run h (read_file_contents (UPDATE_JSON_PATH tgt) JSON_BUFFER_SIZE) s2)
      as rr eqn:Err.
    destruct (value rr) as [buffer |]; cbn [trace value].
    - set (st := parse_status buffer (current_status g)).
      destruct (show_status_quiet h ui st
                  (snd (h unit (Store (W_current_status st)) (final rr))))
        as [Hur Hus].
      remember (run h (show_status ui st) _) as ru eqn:Eru.
      unfold reads, status_stores in *.
      change (Entry (Stat ?p) ?x :: Entry (Store ?w) tt :: ?t ++ ?c :: ?u)
        with ([Entry (Stat p) x; Entry (Store w) tt] ++ t ++ [c] ++ u).
      rewrite !count_app, Hr, Hs, Hur, Hus.
      cbn [count filter is_read is_status_store length Nat.add].
      repeat split; [lia |].
      unfold preceded_by. rewrite Htr.
      cbn [app preceded_from is_read is_status_store negb orb andb].
      rewrite !preceded_from_true_never. reflexivity.
    - unfold reads, status_stores in *.
      change (Entry (Stat ?p) ?x :: Entry (Store ?w) tt :: ?t ++ ?u)
        with ([Entry (Stat p) x; Entry (Store w) tt] ++ t ++ u).
      rewrite !count_app, Hr, Hs.
      cbn [count filter is_read is_status_store length Nat.add].
      repeat split; [lia |].
      unfold preceded_by. rewrite Htr.
      cbn [app preceded_from is_read is_status_store negb orb andb].
      rewrite !preceded_from_true_never. reflexivity. }
  split; [exact Hsame | split; [exact Hread |]].
  destruct (Z.eq_dec ts (last_modified_time g)) as [He | Hne].
  - destruct (Hsame (or_introl He)) as [H0 _]. rewrite H0. lia.
  - destruct (Z.eq_dec ts 0) as [Hz | Hnz].
    + destruct (Hsame (or_intror Hz)) as [H0 _]. rewrite H0. lia.
    + destruct (Hread Hne Hnz) as [H1 _]. rewrite H1. lia.
Qed.

(** A tick on a file with a new timestamp reads once and assigns the status
    once; the tick after it, on the same timestamp, does not read. *)
Lemma poll_tick_reads_at_most_once_witness :
  let tgt := LinuxBuild in
  let s := MemFS.with_file (UPDATE_JSON_PATH tgt) 1700000005 default_json
             (MemFS.empty_at 1700000010) in
  let r := run MemFS.handle (check_update_status tgt full_ui initial_statics) s in
  let r' := run MemFS.handle (check_update_status tgt full_ui (value r)) (final r) in
  reads (trace r) = 1%nat /\ status_stores (trace r) = 1%nat /\
  reads (trace r') = 0%nat /\ current_status (value r') = current_status (value r).
Proof.
  intros tgt s r r'.
  destruct (poll_tick_reads_at_most_once tgt MemFS.os MemFS.handle s full_ui
              initial_statics) as (_ & Hchanged & _).
  destruct (poll_tick_reads_at_most_once tgt MemFS.os MemFS.handle (final r)
              full_ui (value r)) as (Hsame & _ & _).
  fold r in Hchanged. fold r' in Hsame.
  destruct Hchanged as (H1 & _ & _);
    [vm_compute; discriminate | vm_compute; discriminate |].
  destruct Hsame as (H0 & _ & Hcs); [left; vm_compute; reflexivity |].
  split; [exact H1 |]. split; [vm_compute; reflexivity |].
  split; [exact H0 | exact Hcs].
Defined.

Lemma tick_changed_read_failed {S} tgt (h : handler S) ui g s :
  let ts := queried_timestamp tgt h s in
  ts <> 0%Z -> ts <> last_modified_time g ->
  tick_read tgt h s = None ->
  let rr := run h (read_file_contents (UPDATE_JSON_PATH tgt) JSON_BUFFER_SIZE)
              (env_at_read tgt h s) in
  run h (check_update_status tgt ui g) s =
  mk_outcome (apply_write (W_last_modified_time ts) g)
    (snd (h _ (Printf (msg_read_error tgt)) (final rr)))
    (Entry (Stat (UPDATE_JSON_PATH tgt)) (fst (h _ (Stat (UPDATE_JSON_PATH tgt)) s)) ::
     Entry (Store (W_last_modified_time ts)) tt ::
     trace rr ++ [Entry (Printf (msg_read_error tgt)) tt]).
Proof.
  intros ts Hnz Hne Hread rr.
  rewrite (tick_changed tgt h ui g s Hnz Hne).
  unfold tick_read in Hread.
  change (snd (h unit (Store (W_last_modified_time (queried_timestamp tgt h s)))
                 (after_stat tgt h s)))
    with (env_at_read tgt h s).
  rewrite Hread. reflexivity.
Qed.

Lemma tick_changed_read_ok {S} tgt (h : handler S) ui g s buffer :
  let ts := queried_timestamp tgt h s in
  ts <> 0%Z -> ts <> last_modified_time g ->
  tick_read tgt h s = Some buffer ->
  let rr := run h (read_file_contents (UPDATE_JSON_PATH tgt) JSON_BUFFER_SIZE)
              (env_at_read tgt h s) in
  let st := parse_status buffer (current_status g) in
  let ru := run h (show_status ui st)
              (snd (h _ (Store (W_current_status st)) (final rr))) in
  run h (check_update_status tgt ui g) s =
  mk_outcome
    (apply_write (W_current_status st)
       (apply_write (W_last_modified_time ts) g))
    (final ru)
    (Entry (Stat (UPDATE_JSON_PATH tgt)) (fst (h _ (Stat (UPDATE_JSON_PATH tgt)) s)) ::
     Entry (Store (W_last_modified_time ts)) tt ::
     trace rr ++ Entry (Store (W_current_status st)) tt :: trace ru).
Proof.
  intros ts Hnz Hne Hread rr st ru.
  rewrite (tick_changed tgt h ui g s Hnz Hne).
  unfold tick_read in Hread.
  change (snd (h unit (Store (W_last_modified_time (queried_timestamp tgt h s)))
                 (after_stat tgt h s)))
    with (env_at_read tgt h s).
  rewrite Hread. reflexivity.
Qed.

Lemma filter_status_store_read {S} (h : handler S) p n s :
  filter is_status_store (trace (run h (read_file_contents p n) s)) = [].
Proof.
  apply never_run. unfold read_file_contents. simpl.
  intros [|]; simpl; split; try reflexivity; try exact I.
  intros data. split; [reflexivity |]. intros []. split; [reflexivity | exact I].
Qed.

Lemma parse_status_fields buffer old :
  let new := parse_status buffer old in
  progress new =
    match parse_json_value buffer (lit "progress") 32 with
    | Some value_str => atoi value_str
    | None => progress old
    end /\
  status new =
    match parse_json_value buffer (lit "status") 64 with
    | Some v => v
    | None => status old
    end /\
  step new =
    match parse_json_value buffer (lit "step") 64 with
    | Some v => v
    | None => step old
    end.
Proof.
  unfold parse_status.
  destruct (parse_json_value buffer (lit "progress") 32);
    destruct (parse_json_value buffer (lit "status") 64);
    destruct (parse_json_value buffer (lit "step") 64);
    simpl; repeat split; reflexivity.
Qed.

(** C2.  In a poll tick whose read succeeds with the bytes [buffer], the
    stored status is built from the previous one: each of [progress] (through
    [atoi]), [status] and [step] is the extracted value when its extraction
    succeeds and the previous value when it fails; and [current_status] is
    assigned exactly once in the tick, with that complete value. *)
Theorem successful_read_replaces_fieldwise :
  forall (tgt : target) (S : Type) (h : handler S) (s : S) (ui : lv_ui)
         (g : statics) (buffer : list ascii),
    queried_timestamp tgt h s <> 0%Z ->
    queried_timestamp tgt h s <> last_modified_time g ->
    tick_read tgt h s = Some buffer ->
    let r := run h (check_update_status tgt ui g) s in
    let old := current_status g in
    let new := current_status (value r) in
    progress new =
      match parse_json_value buffer (lit "progress") 32 with
      | Some value_str => atoi value_str
      | None => progress old
      end /\
    status new =
      match parse_json_value buffer (lit "status") 64 with
      | Some v => v
      | None => status old
      end /\
    step new =
      match parse_json_value buffer (lit "step") 64 with
      | Some v => v
      | None => step old
      end /\
    filter is_status_store (trace r) = [Entry (Store (W_current_status new)) tt].
Proof.
  intros tgt S h s ui g buffer Hnz Hne Hread r old new.
  subst r new. rewrite (tick_changed_read_ok tgt h ui g s buffer Hnz Hne Hread).
  cbn [value trace current_status apply_write].
  destruct (parse_status_fields buffer old) as (Hp & Hs & Hst).
  repeat split; try assumption.
  change (Entry (Stat ?p) ?x :: Entry (Store ?w) tt :: ?t ++ ?c :: ?u)
    with ([Entry (Stat p) x; Entry (Store w) tt] ++ t ++ [c] ++ u).
  rewrite !filter_app, filter_status_store_read.
  rewrite (never_run is_status_store (show_status ui _) h)
    by (apply show_status_never; reflexivity).
  reflexivity.
Qed.

(** A tick on a file that holds only a progress field: the two text fields
    keep their previous values. *)
Lemma successful_read_replaces_fieldwise_witness :
  let tgt := LinuxBuild in
  let s := MemFS.with_file (UPDATE_JSON_PATH tgt) 1700000005 progress_only_json
             (MemFS.empty_at 1700000010) in
  let r := run MemFS.handle (check_update_status tgt full_ui initial_statics) s in
  (queried_timestamp tgt MemFS.handle s <> 0%Z /\
   queried_timestamp tgt MemFS.handle s <> last_modified_time initial_statics /\
   tick_read tgt MemFS.handle s = Some progress_only_json) /\
  progress (current_status (value r)) = 42%Z /\
  status (current_status (value r)) = lit "System Ready" /\
  step (current_status (value r)) = lit "Waiting for update".
Proof.
  intros tgt s r.
  assert (H1 : queried_timestamp tgt MemFS.handle s <> 0%Z)
    by (vm_compute; discriminate).
  assert (H2 : queried_timestamp tgt MemFS.handle s
               <> last_modified_time initial_statics)
    by (vm_compute; discriminate).
  assert (H3 : tick_read tgt MemFS.handle s = Some progress_only_json)
    by (vm_compute; reflexivity).
  split; [repeat split; assumption |].
  destruct (successful_read_replaces_fieldwise tgt MemFS.os MemFS.handle s
              full_ui initial_statics progress_only_json H1 H2 H3)
    as (Hp & Hs & Hst & _).
  fold r in Hp, Hs, Hst.
  rewrite Hp, Hs, Hst. vm_compute. repeat split; reflexivity.
Defined.

Lemma read_file_contents_starts_with_fopen {S} (h : handler S) p n s :
  exists b rest,
    trace (run h (read_file_contents p n) s) = Entry (Fopen p ModeRb) b :: rest.
Proof.
  destruct (read_file_contents_trace h p n s) as (_ & _ & _ & H). exact H.
Qed.

Lemma read_failure_leaves_status {S} tgt (h : handler S) ui g s :
  queried_timestamp tgt h s <> 0%Z ->
  queried_timestamp tgt h s <> last_modified_time g ->
  tick_read tgt h s = None ->
  let r := run h (check_update_status tgt ui g) s in
  In (Entry (Printf (msg_read_error tgt)) tt) (trace r) /\
  status_stores (trace r) = 0%nat /\
  current_status (value r) = current_status g.
Proof.
  intros Hnz Hne Hread r. subst r.
  rewrite (tick_changed_read_failed tgt h ui g s Hnz Hne Hread).
  cbn [trace value]. split; [| split].
  - right. right. apply in_or_app. right. left. reflexivity.
  - unfold status_stores, count.
    change (Entry (Stat ?p) ?x :: Entry (Store ?w) tt :: ?t ++ ?u)
      with ([Entry (Stat p) x; Entry (Store w) tt] ++ t ++ u).
    rewrite !filter_app, filter_status_store_read. reflexivity.
  - reflexivity.
Qed.

(** C3.  In a poll tick that finds a non-zero timestamp different from
    [last_modified_time]: the assignment of the new timestamp to
    [last_modified_time] is the first thing after the [stat], before the
    file is opened for reading; when the read then fails, the read-error
    diagnostic is printed and [current_status] is neither assigned nor
    changed, while [last_modified_time] keeps the new timestamp; and any
    later tick that finds the same timestamp reads nothing. *)
Theorem timestamp_advanced_before_read :
  forall (tgt : target) (S : Type) (h : handler S) (s : S) (ui : lv_ui)
         (g : statics),
    let ts := queried_timestamp tgt h s in
    ts <> 0%Z ->
    ts <> last_modified_time g ->
    let r := run h (check_update_status tgt ui g) s in
    last_modified_time (value r) = ts /\
    (exists a b rest,
        trace r =
        Entry (Stat (UPDATE_JSON_PATH tgt)) a ::
        Entry (Store (W_last_modified_time ts)) tt ::
        Entry (Fopen (UPDATE_JSON_PATH tgt) ModeRb) b :: rest) /\
    (tick_read tgt h s = None ->
       In (Entry (Printf (msg_read_error tgt)) tt) (trace r) /\
       status_stores (trace r) = 0%nat /\
       current_status (value r) = current_status g) /\
    (forall (S' : Type) (h' : handler S') (s' : S') (ui' : lv_ui),
        queried_timestamp tgt h' s' = ts ->
        let r' := run h' (check_update_status tgt ui' (value r)) s' in
        reads (trace r') = 0%nat /\
        current_status (value r') = current_status (value r)).
Proof.
  intros tgt S h s ui g ts Hnz Hne r.
  assert (Hlmt : last_modified_time (value r) = ts).
  { subst r. destruct (tick_read tgt h s) as [buffer |] eqn:Hread.
    - rewrite (tick_changed_read_ok tgt h ui g s buffer Hnz Hne Hread). reflexivity.
    - rewrite (tick_changed_read_failed tgt h ui g s Hnz Hne Hread). reflexivity. }
  split; [exact Hlmt |]. split; [| split].
  - subst r.
    destruct (read_file_contents_starts_with_fopen h (UPDATE_JSON_PATH tgt)
                JSON_BUFFER_SIZE (env_at_read tgt h s)) as (b & rest & Htr).
    destruct (tick_read tgt h s) as [buffer |] eqn:Hread.
    + rewrite (tick_changed_read_ok tgt h ui g s buffer Hnz Hne Hread).
      cbn [trace]. rewrite Htr. fold ts. cbn [app]. eauto.
    + rewrite (tick_changed_read_failed tgt h ui g s Hnz Hne Hread).
      cbn [trace]. rewrite Htr. fold ts. cbn [app]. eauto.
  - intros Hread. exact (read_failure_leaves_status tgt h ui g s Hnz Hne Hread).
  - intros S' h' s' ui' Hsame r'. subst r'.
    rewrite (tick_unchanged tgt h' ui' (value r) s').
    + split; reflexivity.
    + rewrite Hsame. exact Hnz.
    + rewrite Hsame, Hlmt. reflexivity.
Qed.

Lemma timestamp_advanced_before_read_witness :
  let tgt := LinuxBuild in
  let s := MemFS.empty_at 1700000010 in
  let r := run vanishing_handle (check_update_status tgt no_ui initial_statics) s in
  (queried_timestamp tgt vanishing_handle s <> 0%Z /\
   queried_timestamp tgt vanishing_handle s <> last_modified_time initial_statics /\
   tick_read tgt vanishing_handle s = None) /\
  last_modified_time (value r) = 1700000005%Z /\
  current_status (value r) = initial_status /\
  reads (trace (run vanishing_handle
                  (check_update_status tgt no_ui (value r)) (final r))) = 0%nat.
Proof.
  intros tgt s r.
  assert (H1 : queried_timestamp tgt vanishing_handle s <> 0%Z)
    by (vm_compute; discriminate).
  assert (H2 : queried_timestamp tgt vanishing_handle s
               <> last_modified_time initial_statics)
    by (vm_compute; discriminate).
  assert (H3 : tick_read tgt vanishing_handle s = None)
    by (vm_compute; reflexivity).
  split; [repeat split; assumption |].
  destruct (timestamp_advanced_before_read tgt MemFS.os vanishing_handle s
              no_ui initial_statics H1 H2)
    as (Hl & _ & Hfail & Hlater).
  fold r in Hl, Hfail, Hlater.
  destruct (Hfail H3) as (_ & _ & Hcs).
  split; [rewrite Hl; vm_compute; reflexivity |].
  split; [rewrite Hcs; reflexivity |].
  destruct (Hlater MemFS.os vanishing_handle (final r) no_ui) as [Hr _];
    [vm_compute; reflexivity | exact Hr].
Defined.

(** C9.  When the file opens but [fread] delivers no byte (an empty file),
    [read_file_contents] returns failure although the open succeeded; and a
    poll tick that meets this on a new timestamp prints the read-error
    diagnostic and leaves [current_status] as it was. *)
Theorem empty_file_is_a_read_failure :
  forall (tgt : target) (S : Type) (h : handler S) (ui : lv_ui) (g : statics),
    (forall (p : list ascii) (max_size : nat) (s : S),
        fst (h _ (Fopen p ModeRb) s) = true ->
        fst (h _ (Fread (max_size - 1)) (snd (h _ (Fopen p ModeRb) s))) = [] ->
        let r := run h (read_file_contents p max_size) s in
        value r = None /\
        trace r = [Entry (Fopen p ModeRb) true;
                   Entry (Fread (max_size - 1)) []; Entry Fclose tt]) /\
    (forall (s : S),
        let ts := queried_timestamp tgt h s in
        let s2 := env_at_read tgt h s in
        ts <> 0%Z ->
        ts <> last_modified_time g ->
        fst (h _ (Fopen (UPDATE_JSON_PATH tgt) ModeRb) s2) = true ->
        fst (h _ (Fread (JSON_BUFFER_SIZE - 1))
               (snd (h _ (Fopen (UPDATE_JSON_PATH tgt) ModeRb) s2))) = [] ->
        let r := run h (check_update_status tgt ui g) s in
        current_status (value r) = current_status g /\
        status_stores (trace r) = 0%nat /\
        In (Entry (Printf (msg_read_error tgt)) tt) (trace r)).
Proof.
  intros tgt S h ui g.
  assert (Hempty : forall (p : list ascii) (max_size : nat) (s : S),
             fst (h _ (Fopen p ModeRb) s) = true ->
             fst (h _ (Fread (max_size - 1)) (snd (h _ (Fopen p ModeRb) s))) = [] ->
             let r := run h (read_file_contents p max_size) s in
             value r = None /\
             trace r = [Entry (Fopen p ModeRb) true;
                        Entry (Fread (max_size - 1)) []; Entry Fclose tt]).
  { intros p n s Hopen Hdata r. subst r. rewrite run_read_file_contents.
    destruct (h bool (Fopen p ModeRb) s) as [f s1]. simpl in Hopen, Hdata.
    subst f.
    destruct (h (list ascii) (Fread (n - 1)) s1) as [data s2].
    simpl in Hdata. subst data.
    rewrite firstn_nil. split; reflexivity. }
  split; [exact Hempty |].
  intros s ts s2 Hnz Hne Hopen Hdata r.
  destruct (Hempty (UPDATE_JSON_PATH tgt) JSON_BUFFER_SIZE s2 Hopen Hdata)
    as [Hnone _].
  destruct (read_failure_leaves_status tgt h ui g s Hnz Hne Hnone)
    as (Hin & Hst & Hcs).
  repeat split; assumption.
Qed.

(** A zero-byte status file with a new timestamp: the open succeeds, the
    read is reported as failed, the status stays. *)
Lemma empty_file_is_a_read_failure_witness :
  let tgt := LinuxBuild in
  let p := UPDATE_JSON_PATH tgt in
  let s := MemFS.with_file p 1700000005 [] (MemFS.empty_at 1700000010) in
  let r := run MemFS.handle (check_update_status tgt no_ui initial_statics) s in
  (fst (MemFS.handle _ (Fopen p ModeRb) s) = true /\
   queried_timestamp tgt MemFS.handle s <> 0%Z /\
   queried_timestamp tgt MemFS.handle s <> last_modified_time initial_statics) /\
  value (run MemFS.handle (read_file_contents p JSON_BUFFER_SIZE) s) = None /\
  current_status (value r) = initial_status /\
  last_modified_time (value r) = 1700000005%Z.
Proof.
  intros tgt p s r.
  destruct (empty_file_is_a_read_failure tgt MemFS.os MemFS.handle no_ui
              initial_statics) as [Hread Htick].
  assert (H1 : fst (MemFS.handle _ (Fopen p ModeRb) s) = true)
    by (vm_compute; reflexivity).
  assert (H2 : queried_timestamp tgt MemFS.handle s <> 0%Z)
    by (vm_compute; discriminate).
  assert (H3 : queried_timestamp tgt MemFS.handle s
               <> last_modified_time initial_statics)
    by (vm_compute; discriminate).
  split; [exact (conj H1 (conj H2 H3)) |]. split; [| split].
  - apply (Hread p JSON_BUFFER_SIZE s H1). vm_compute. reflexivity.
  - apply (Htick s H2 H3); vm_compute; reflexivity.
  - vm_compute. reflexivity.
Defined.

(* ===================================================================== *)
(** ** The absent file and the rate limit of its diagnostic *)
(* ===================================================================== *)

Lemma int64_wrap_small z :
  (- 2 ^ 63 <= z < 2 ^ 63)%Z -> int64_wrap z = z.
Proof.
  intros H. unfold int64_wrap, wrap_signed.
  change (2 ^ (64 - 1))%Z with (2 ^ 63)%Z.
  rewrite Z.mod_small; [lia |].
  change (2 ^ 64)%Z with (2 * 2 ^ 63)%Z. lia.
Qed.

Lemma queried_timestamp_stat {S} tgt (h : handler S) s :
  queried_timestamp tgt h s = stat_value (fst (h _ (Stat (UPDATE_JSON_PATH tgt)) s)).
Proof.
  unfold queried_timestamp, get_file_timestamp. simpl.
  destruct (h (option Z) (Stat (UPDATE_JSON_PATH tgt)) s) as [[m|] s1]; reflexivity.
Qed.

Lemma never_forallb {A S} bad (p : io A) (h : handler S) s :
  never bad p -> forallb (fun c => negb (bad c)) (trace (run h p s)) = true.
Proof.
  revert s. induction p as [a | X e k IH]; simpl; intros s Hp; [reflexivity |].
  destruct (h X e s) as [x s1]. simpl.
  destruct (Hp x) as [H1 H2]. rewrite H1. simpl. apply IH, H2.
Qed.

Lemma log_times_quiet msg now tr :
  forallb (fun c => negb (is_time_or_log msg c)) tr = true ->
  log_times msg now tr = [].
Proof.
  induction tr as [| [X e x] t IH]; simpl; intros H; [reflexivity |].
  apply andb_true_iff in H. destruct H as [H1 H2].
  destruct e; simpl in H1; try discriminate; try (apply IH; exact H2).
  destruct (ascii_list_eqb text msg); [discriminate | apply IH; exact H2].
Qed.

Lemma log_times_app msg now a b :
  exists now', log_times msg now (a ++ b) = log_times msg now a ++ log_times msg now' b.
Proof.
  revert now. induction a as [| [X e x] t IH]; simpl; intros now.
  - exists now. reflexivity.
  - destruct e; try apply IH.
    destruct (ascii_list_eqb text msg).
    + destruct (IH now) as [now' H]. exists now'. rewrite H. reflexivity.
    + apply IH.
Qed.

Lemma ascii_list_eqb_refl a : ascii_list_eqb a a = true.
Proof. unfold ascii_list_eqb. destruct (list_eq_dec ascii_dec a a); congruence. Qed.

Lemma msg_update_not_waiting tgt st :
  ascii_list_eqb (msg_update st) (msg_waiting tgt) = false.
Proof.
  unfold ascii_list_eqb.
  destruct (list_eq_dec ascii_dec (msg_update st) (msg_waiting tgt)) as [E |];
    [| reflexivity].
  unfold msg_update, msg_waiting in E. simpl in E. discriminate.
Qed.

Lemma msg_read_error_not_waiting tgt :
  ascii_list_eqb (msg_read_error tgt) (msg_waiting tgt) = false.
Proof.
  unfold ascii_list_eqb.
  destruct (list_eq_dec ascii_dec (msg_read_error tgt) (msg_waiting tgt)) as [E |];
    [| reflexivity].
  unfold msg_read_error, msg_waiting in E. simpl in E. discriminate.
Qed.

Lemma read_file_contents_never bad p n :
  (forall b, bad (Entry (Fopen p ModeRb) b) = false) ->
  (forall d, bad (Entry (Fread (n - 1)) d) = false) ->
  bad (Entry Fclose tt) = false ->
  never bad (read_file_contents p n).
Proof.
  intros Ho Hr Hc. unfold read_file_contents. simpl.
  intros [|]; simpl; split; auto.
  intros d. split; auto. intros []. split; auto.
Qed.

(** What one tick adds to the times of the waiting diagnostic: nothing, and
    [last_log_time] stays; or one time, more than 10000 ms after
    [last_log_time], which becomes the new [last_log_time]. *)
Lemma tick_log_times {S} tgt (h : handler S) ui g s now0 :
  let r := run h (check_update_status tgt ui g) s in
  forallb time_in_range (trace r) = true ->
  (0 <= last_log_time g < 2 ^ 60)%Z ->
  (log_times (msg_waiting tgt) now0 (trace r) = [] /\
   last_log_time (value r) = last_log_time g) \/
  (exists T,
      log_times (msg_waiting tgt) now0 (trace r) = [T] /\
      (10000 < T - last_log_time g)%Z /\
      last_log_time (value r) = T /\ (0 <= T < 2 ^ 60)%Z).
Proof.
  intros r Hrange Hllt. subst r.
  destruct (Z.eq_dec (queried_timestamp tgt h s) 0) as [Hz | Hnz].
  - rewrite (tick_absent tgt h ui g s Hz) in *.
    set (t := fst (h Z Time (after_stat tgt h s))) in *.
    destruct (10000 <? _)%Z eqn:Hgap.
    + right. cbn [trace forallb time_in_range] in Hrange.
      rewrite !andb_true_r in Hrange. simpl in Hrange.
      apply andb_true_iff in Hrange. destruct Hrange as [Hlo Hhi].
      apply Z.leb_le in Hlo. apply Z.ltb_lt in Hhi.
      assert (Ht : int64_wrap t = t) by (apply int64_wrap_small; lia).
      assert (Hms : int64_wrap (int64_wrap t * 1000) = (t * 1000)%Z)
        by (rewrite Ht; apply int64_wrap_small; lia).
      rewrite Hms in *.
      rewrite int64_wrap_small in Hgap by lia.
      apply Z.ltb_lt in Hgap.
      exists (t * 1000)%Z. cbn [trace value log_times].
      rewrite Hms, ascii_list_eqb_refl. cbn [last_log_time apply_write].
      repeat split; try lia.
    + left. cbn [trace value log_times]. split; reflexivity.
  - destruct (Z.eq_dec (queried_timestamp tgt h s) (last_modified_time g))
      as [Heq | Hne].
    + rewrite (tick_unchanged tgt h ui g s Hnz Heq). left. split; reflexivity.
    + left. rewrite (tick_changed tgt h ui g s Hnz Hne).
      set (s2 := snd (h unit (Store _) (after_stat tgt h s))).
      pose proof (never_forallb (is_time_or_log (msg_waiting tgt))
                    (read_file_contents (UPDATE_JSON_PATH tgt) JSON_BUFFER_SIZE)
                    h s2
                    (read_file_contents_never _ _ _
                       (fun _ => eq_refl) (fun _ => eq_refl) eq_refl)) as Hq.
      remember (run h (read_file_contents (UPDATE_JSON_PATH tgt) JSON_BUFFER_SIZE) s2)
        as rr eqn:Err.
      destruct (value rr) as [buffer |]; cbn [trace value]; split;
        try reflexivity; apply log_times_quiet.
      * cbn [forallb is_time_or_log negb andb].
        rewrite forallb_app, Hq. cbn [forallb is_time_or_log negb andb].
        apply never_forallb, show_status_never; try reflexivity;
          cbn [is_time_or_log]; apply msg_update_not_waiting.
      * cbn [forallb is_time_or_log negb andb].
        rewrite forallb_app, Hq. cbn [forallb is_time_or_log negb andb].
        rewrite msg_read_error_not_waiting. reflexivity.
Qed.

(** A tick that finds the file absent touches neither the stored status nor
    the stored timestamp, and does not read. *)
Lemma tick_absent_frame {S} tgt (h : handler S) ui g s :
  queried_timestamp tgt h s = 0%Z ->
  let r := run h (check_update_status tgt ui g) s in
  reads (trace r) = 0%nat /\
  count is_status_store (trace r) = 0%nat /\
  count is_mtime_store (trace r) = 0%nat /\
  current_status (value r) = current_status g /\
  last_modified_time (value r) = last_modified_time g.
Proof.
  intros Hz r. subst r. rewrite (tick_absent tgt h ui g s Hz).
  destruct (10000 <? _)%Z; cbn; repeat split; reflexivity.
Qed.

Lemma run_poll_ticks_succ {S} tgt (h : handler S) n ui g s :
  run h (poll_ticks tgt (Datatypes.S n) ui g) s =
  let r1 := run h (check_update_status tgt ui g) s in
  let r2 := run h (poll_ticks tgt n ui (value r1)) (final r1) in
  mk_outcome (value r2) (final r2) (trace r1 ++ trace r2).
Proof. cbn [poll_ticks]. rewrite run_bind. reflexivity. Qed.

Lemma poll_ticks_spaced {S} tgt (h : handler S) ui n :
  forall g s now,
    let r := run h (poll_ticks tgt n ui g) s in
    forallb time_in_range (trace r) = true ->
    (0 <= last_log_time g < 2 ^ 60)%Z ->
    spaced 10000 (last_log_time g) (log_times (msg_waiting tgt) now (trace r)).
Proof.
  induction n as [| n IH]; intros g s now r Hrange Hllt; subst r.
  - exact I.
  - rewrite run_poll_ticks_succ in *. cbn [trace] in *.
    rewrite forallb_app in Hrange. apply andb_true_iff in Hrange.
    destruct Hrange as [Hr1 Hr2].
    destruct (log_times_app (msg_waiting tgt) now
                (trace (run h (check_update_status tgt ui g) s))
                (trace (run h (poll_ticks tgt n ui
                                 (value (run h (check_update_status tgt ui g) s)))
                          (final (run h (check_update_status tgt ui g) s)))))
      as [now' Happ].
    rewrite Happ.
    destruct (tick_log_times tgt h ui g s now Hr1 Hllt)
      as [[Hnil Hsame] | (T & Hone & Hgap & Hnew & HT)].
    + rewrite Hnil. cbn [app]. rewrite <- Hsame.
      apply IH; [exact Hr2 | rewrite Hsame; exact Hllt].
    + rewrite Hone. cbn [app spaced]. split; [exact Hgap |].
      rewrite <- Hnew. apply IH; [exact Hr2 | rewrite Hnew; exact HT].
Qed.

Lemma poll_ticks_absent_frame {S} tgt (h : handler S) ui n :
  forall g s,
    let r := run h (poll_ticks tgt n ui g) s in
    forallb stat_absent (trace r) = true ->
    reads (trace r) = 0%nat /\
    count is_status_store (trace r) = 0%nat /\
    count is_mtime_store (trace r) = 0%nat /\
    current_status (value r) = current_status g /\
    last_modified_time (value r) = last_modified_time g.
Proof.
  induction n as [| n IH]; intros g s r Habs; subst r.
  - cbn. repeat split; reflexivity.
  - rewrite run_poll_ticks_succ in *. cbn [trace value] in *.
    rewrite forallb_app in Habs. apply andb_true_iff in Habs.
    destruct Habs as [Ha1 Ha2].
    assert (Hz : queried_timestamp tgt h s = 0%Z).
    { rewrite queried_timestamp_stat.
      destruct (Z.eq_dec (queried_timestamp tgt h s) 0) as [Hz | Hnz].
      - rewrite <- queried_timestamp_stat. exact Hz.
      - exfalso.
        destruct (Z.eq_dec (queried_timestamp tgt h s) (last_modified_time g))
          as [Heq | Hne].
        + rewrite (tick_unchanged tgt h ui g s Hnz Heq) in Ha1.
          cbn in Ha1. rewrite andb_true_r in Ha1. apply Z.eqb_eq in Ha1.
          rewrite <- queried_timestamp_stat in Ha1. contradiction.
        + rewrite (tick_changed tgt h ui g s Hnz Hne) in Ha1.
          destruct (value (run h (read_file_contents _ _) _));
            cbn [trace forallb stat_absent] in Ha1;
            apply andb_true_iff in Ha1; destruct Ha1 as [Ha1 _];
            apply Z.eqb_eq in Ha1;
            rewrite <- queried_timestamp_stat in Ha1; contradiction. }
    destruct (tick_absent_frame tgt h ui g s Hz) as (R1 & S1 & M1 & C1 & L1).
    destruct (IH (value (run h (check_update_status tgt ui g) s))
                (final (run h (check_update_status tgt ui g) s)) Ha2)
      as (R2 & S2 & M2 & C2 & L2).
    unfold reads in *. rewrite !count_app, R1, R2, S1, S2, M1, M2, C2, L2, C1, L1.
    repeat split; reflexivity.
Qed.

(** C7.  Over any number of consecutive poll ticks (clock answers within
    range): the waiting-for-file diagnostic is printed only when more than
    10000 ms separate the tick's clock from [last_log_time], which is the
    clock of the previous such diagnostic, so two of them are always more
    than 10 seconds apart; and when every [stat] finds the file absent, no
    tick reads the file, assigns [current_status] or [last_modified_time],
    or changes them. *)
Theorem absent_file_rate_limited :
  forall (tgt : target) (S : Type) (h : handler S) (ui : lv_ui) (n : nat)
         (g : statics) (s : S),
    let r := run h (poll_ticks tgt n ui g) s in
    forallb time_in_range (trace r) = true ->
    (0 <= last_log_time g < 2 ^ 60)%Z ->
    spaced 10000 (last_log_time g) (log_times (msg_waiting tgt) 0 (trace r)) /\
    (forallb stat_absent (trace r) = true ->
       reads (trace r) = 0%nat /\
       count is_status_store (trace r) = 0%nat /\
       count is_mtime_store (trace r) = 0%nat /\
       current_status (value r) = current_status g /\
       last_modified_time (value r) = last_modified_time g).
Proof.
  intros tgt S h ui n g s r Hrange Hllt. split.
  - exact (poll_ticks_spaced tgt h ui n g s 0%Z Hrange Hllt).
  - exact (poll_ticks_absent_frame tgt h ui n g s).
Qed.

(** Five ticks four seconds apart on an empty directory: the diagnostic is
    printed at the first and at the fourth tick only. *)
Lemma absent_file_rate_limited_witness :
  let tgt := LinuxBuild in
  let h := MemFS.handle_advancing 4 in
  let g := apply_write (W_last_modified_time 1699999999) initial_statics in
  let r := run h (poll_ticks tgt 5 no_ui g) (MemFS.empty_at 1700000000) in
  (forallb time_in_range (trace r) = true /\
   (0 <= last_log_time g < 2 ^ 60)%Z /\
   forallb stat_absent (trace r) = true) /\
  log_times (msg_waiting tgt) 0 (trace r) = [1700000000000; 1700000012000]%Z /\
  spaced 10000 (last_log_time g) (log_times (msg_waiting tgt) 0 (trace r)) /\
  value r = apply_write (W_last_log_time 1700000012000) g.
Proof.
  intros tgt h g r.
  assert (H1 : forallb time_in_range (trace r) = true)
    by (vm_compute; reflexivity).
  assert (H2 : (0 <= last_log_time g < 2 ^ 60)%Z)
    by (unfold g; simpl; lia).
  assert (H3 : forallb stat_absent (trace r) = true)
    by (vm_compute; reflexivity).
  split; [exact (conj H1 (conj H2 H3)) |].
  destruct (absent_file_rate_limited tgt MemFS.os h no_ui 5 g
              (MemFS.empty_at 1700000000) H1 H2)
    as [Hspaced Hframe].
  split; [vm_compute; reflexivity |].
  split; [exact Hspaced |].
  vm_compute; reflexivity.
Defined.

(* ===================================================================== *)
(** ** Writing the status file: bootstrap and simulator *)
(* ===================================================================== *)

Lemma run_write_file_contents {S} (h : handler S) p content s :
  let c := cstring content in
  let finish (s' : S) (pre : list entry) :=
    let (n, s'') := h _ (Fwrite c) s' in
    mk_outcome (n =? length c)%nat (snd (h _ Fclose s''))
      (pre ++ [Entry (Fwrite c) n; Entry Fclose tt]) in
  run h (write_file_contents p content) s =
  let (f1, s1) := h _ (Fopen p ModeWb) s in
  if f1 then finish s1 [Entry (Fopen p ModeWb) true]
  else
    let (f2, s3) :=
      h _ (Fopen p ModeWb) (snd (h _ (Mkdir (lit "tmp") 511) s1)) in
    if f2 then
      finish s3 [Entry (Fopen p ModeWb) false; Entry (Mkdir (lit "tmp") 511) tt;
                 Entry (Fopen p ModeWb) true]
    else
      mk_outcome false s3
        [Entry (Fopen p ModeWb) false; Entry (Mkdir (lit "tmp") 511) tt;
         Entry (Fopen p ModeWb) false].
Proof.
  intros c finish. unfold write_file_contents, finish. fold c. simpl.
  destruct (h bool (Fopen p ModeWb) s) as [[|] s1]; simpl.
  - destruct (h nat (Fwrite c) s1) as [n s2]. simpl.
    destruct (h unit Fclose s2) as [[] s3]. reflexivity.
  - destruct (h unit (Mkdir _ 511) s1) as [[] s2]. simpl.
    destruct (h bool (Fopen p ModeWb) s2) as [[|] s3]; simpl; [| reflexivity].
    destruct (h nat (Fwrite c) s3) as [n s4]. simpl.
    destruct (h unit Fclose s4) as [[] s5]. reflexivity.
Qed.

(** What [write_file_contents] does, for every environment: it hands the
    content to [fwrite] once when one of its two opens succeeds and never
    otherwise; it returns [true] exactly when a stream was opened and
    [fwrite] reported the whole length; the only directory it ever creates
    is ["tmp"]. *)
Lemma write_file_contents_effect {S} (h : handler S) p content s :
  let r := run h (write_file_contents p content) s in
  written (trace r) =
    (if existsb is_open_for_write (trace r) then [cstring content] else []) /\
  value r = existsb is_complete_write (trace r) /\
  (mkdirs (trace r) = [] \/ mkdirs (trace r) = [lit "tmp"]) /\
  reads (trace r) = 0%nat.
Proof.
  intros r. subst r. rewrite run_write_file_contents.
  destruct (h bool (Fopen p ModeWb) s) as [[|] s1].
  - destruct (h nat (Fwrite (cstring content)) s1) as [n s2].
    cbn; rewrite ?orb_false_r; repeat split; auto.
  - destruct (h bool (Fopen p ModeWb) (snd (h unit (Mkdir (lit "tmp") 511) s1)))
      as [[|] s3].
    + destruct (h nat (Fwrite (cstring content)) s3) as [n s4].
      cbn; rewrite ?orb_false_r; repeat split; auto.
    + cbn. repeat split; auto.
Qed.

Lemma written_app a b : written (a ++ b) = written a ++ written b.
Proof.
  induction a as [| [X e x] t IH]; simpl; [reflexivity |].
  destruct e; simpl; rewrite ?IH; reflexivity.
Qed.

Lemma run_ensure_update_json_exists {S} tgt (h : handler S) s :
  let ts := queried_timestamp tgt h s in
  let stat := Entry (Stat (UPDATE_JSON_PATH tgt))
                (fst (h _ (Stat (UPDATE_JSON_PATH tgt)) s)) in
  let rw := run h (write_file_contents (UPDATE_JSON_PATH tgt) default_json)
              (after_stat tgt h s) in
  trace (run h (ensure_update_json_exists tgt) s) =
  if (ts =? 0)%Z then
    stat :: trace rw ++
    [Entry (Printf
              ((if value rw then lit "Created default update status file at "
                else lit "Error: Could not create ")
               ++ UPDATE_JSON_PATH tgt ++ [LF])) tt]
  else [stat].
Proof.
  intros ts stat rw. unfold ensure_update_json_exists.
  rewrite run_bind, run_get_file_timestamp. cbn [value final trace].
  fold ts. destruct (ts =? 0)%Z; cbn [negb]; [| reflexivity].
  rewrite run_bind. fold rw. cbn [value final trace].
  destruct (value rw); cbn [negb]; rewrite run_call; cbn [trace app];
    rewrite (unit_tt (fst (h unit (Printf _) _))); reflexivity.
Qed.

(** C5.  [ensure_update_json_exists] makes no call beyond the [stat] when
    the timestamp is non-zero; when it is 0 it hands the default content,
    and nothing else, to [fwrite] (once, if the file could be opened).
    Extracting ["progress"], ["status"] and ["step"] from that content
    gives ["0"] (the integer 0), ["System Ready"] and ["Waiting for
    update"], so the status parsed from it, whatever the previous one, is
    the initial value of [current_status]. *)
Theorem bootstrap_default_round_trip :
  forall (tgt : target) (S : Type) (h : handler S) (s : S),
    let ts := queried_timestamp tgt h s in
    let r := run h (ensure_update_json_exists tgt) s in
    (ts <> 0%Z ->
       trace r = [Entry (Stat (UPDATE_JSON_PATH tgt))
                    (fst (h _ (Stat (UPDATE_JSON_PATH tgt)) s))]) /\
    (ts = 0%Z ->
       written (trace r) =
       if existsb is_open_for_write (trace r) then [default_json] else []) /\
    (written (trace r) = [] \/ (ts = 0%Z /\ written (trace r) = [default_json])) /\
    parse_json_value default_json (lit "progress") 32 = Some (lit "0") /\
    atoi (lit "0") = 0%Z /\
    parse_json_value default_json (lit "status") 64 = Some (lit "System Ready") /\
    parse_json_value default_json (lit "step") 64
      = Some (lit "Waiting for update") /\
    (forall st : update_status_t, parse_status default_json st = initial_status) /\
    current_status initial_statics
      = mk_status 0 (lit "System Ready") (lit "Waiting for update").
Proof.
  intros tgt S h s ts r.
  assert (Htr := run_ensure_update_json_exists tgt h s). cbv zeta in Htr.
  fold ts r in Htr.
  destruct (write_file_contents_effect h (UPDATE_JSON_PATH tgt) default_json
              (after_stat tgt h s)) as (Hw & _ & _ & _).
  change (cstring default_json) with default_json in Hw.
  assert (Hzero : ts = 0%Z ->
            written (trace r) =
            if existsb is_open_for_write (trace r) then [default_json] else []).
  { intros Hz. rewrite Hz in Htr. cbn [Z.eqb] in Htr. rewrite Htr.
    change (?a :: ?t ++ ?u) with ([a] ++ t ++ u).
    rewrite !written_app, !existsb_app, Hw. cbn [written existsb is_open_for_write app orb].
    rewrite orb_false_r, app_nil_r. reflexivity. }
  split; [| split; [exact Hzero | split]].
  - intros Hnz. apply Z.eqb_neq in Hnz. rewrite Hnz in Htr. exact Htr.
  - destruct (Z.eq_dec ts 0) as [Hz | Hnz].
    + rewrite (Hzero Hz).
      destruct (existsb is_open_for_write (trace r)); auto.
    + left. apply Z.eqb_neq in Hnz. rewrite Hnz in Htr. rewrite Htr. reflexivity.
  - repeat split; reflexivity.
Qed.

(** Bootstrap in an empty working directory writes the default content; with
    the file in place it only looks at the timestamp. *)
Lemma bootstrap_default_round_trip_witness :
  let tgt := SimulatorBuild in
  let s := MemFS.empty_at 1700000000 in
  let r := run MemFS.handle (ensure_update_json_exists tgt) s in
  let r' := run MemFS.handle (ensure_update_json_exists tgt) (final r) in
  written (trace r) = [default_json] /\
  trace r' = [Entry (Stat (UPDATE_JSON_PATH tgt)) (Some 1700000000%Z)].
Proof.
  intros tgt s r r'.
  destruct (bootstrap_default_round_trip tgt MemFS.os MemFS.handle s)
    as (_ & Hzero & _).
  destruct (bootstrap_default_round_trip tgt MemFS.os MemFS.handle (final r))
    as (Hnz & _).
  fold r in Hzero. fold r' in Hnz. split.
  - rewrite Hzero by (vm_compute; reflexivity). vm_compute. reflexivity.
  - rewrite Hnz by (vm_compute; discriminate). vm_compute. reflexivity.
Defined.

(** C8 (the code departs from the claim).  The Linux target with
    [/var/lib] present and [/var/lib/update_tracker] missing: the first open
    fails, the directory created is ["tmp"] in the working directory and
    not the parent of the path, the second open fails as well and the call
    returns [false]; with the parent directory in place the same call
    succeeds.  For every environment the only directory the function ever
    creates is ["tmp"], which is the parent of the status file in neither
    build. *)
Theorem write_retry_creates_tmp_not_parent :
  let p := UPDATE_JSON_PATH LinuxBuild in
  let parent := lit "/var/lib/update_tracker" in
  let s := MemFS.mk_os [] [lit "/var"; lit "/var/lib"] 1700000000 None [] in
  let s_ok :=
    MemFS.mk_os [] [parent; lit "/var"; lit "/var/lib"] 1700000000 None [] in
  let r := run MemFS.handle (write_file_contents p default_json) s in
  MemFS.dirname p = parent /\
  value r = false /\
  trace r = [Entry (Fopen p ModeWb) false; Entry (Mkdir (lit "tmp") 511) tt;
             Entry (Fopen p ModeWb) false] /\
  MemFS.dirs (final r) = [lit "tmp"; lit "/var"; lit "/var/lib"] /\
  value (run MemFS.handle (write_file_contents p default_json) s_ok) = true /\
  (forall (S : Type) (h : handler S) (q content : list ascii) (s' : S),
      let tr := trace (run h (write_file_contents q content) s') in
      mkdirs tr = [] \/ mkdirs tr = [lit "tmp"]) /\
  (forall tgt : target,
      ascii_list_eqb (MemFS.dirname (UPDATE_JSON_PATH tgt)) (lit "tmp") = false).
Proof.
  cbv zeta. repeat split; try (vm_compute; reflexivity).
  - intros S h q content s'.
    destruct (write_file_contents_effect h q content s') as (_ & _ & H & _).
    exact H.
  - intros []; vm_compute; reflexivity.
Qed.

Lemma int_wrap_small z :
  (- 2 ^ 31 <= z < 2 ^ 31)%Z -> int_wrap z = z.
Proof.
  intros H. unfold int_wrap, wrap_signed.
  change (2 ^ (32 - 1))%Z with (2 ^ 31)%Z.
  rewrite Z.mod_small; [lia |].
  change (2 ^ 32)%Z with (2 * 2 ^ 31)%Z. lia.
Qed.

Lemma run_simulate_update_cycle {S} tgt (h : handler S) g s :
  let rw := run h (write_file_contents (UPDATE_JSON_PATH tgt)
                     (simulate_json_content (update_phase g))) s in
  let phase := int_wrap (update_phase g + 1) in
  let r := run h (simulate_update_cycle tgt g) s in
  value r =
    apply_write (W_update_phase (if (num_phases <=? phase)%Z then 0%Z else phase)) g /\
  trace r =
    trace rw ++ Entry (Store (W_update_phase phase)) tt ::
    (if (num_phases <=? phase)%Z then [Entry (Store (W_update_phase 0)) tt] else []).
Proof.
  intros rw phase r. subst r. unfold simulate_update_cycle.
  rewrite run_bind. fold rw. cbn [value final trace].
  rewrite run_bind, run_store. cbn [value final trace]. fold phase.
  destruct (num_phases <=? phase)%Z.
  - rewrite run_store. cbn [value final trace]. split; reflexivity.
  - rewrite run_ret. cbn [value final trace]. rewrite app_nil_r.
    split; [| reflexivity].
    destruct g; reflexivity.
Qed.

Lemma simulate_step_phase {S} tgt (h : handler S) g s :
  (0 <= update_phase g < 8)%Z ->
  update_phase (value (run h (simulate_update_cycle tgt g) s))
  = ((update_phase g + 1) mod 8)%Z.
Proof.
  intros Hp.
  destruct (run_simulate_update_cycle tgt h g s) as [Hv _]. rewrite Hv.
  rewrite int_wrap_small by lia.
  change num_phases with 8%Z. cbn [update_phase apply_write].
  destruct (Z.leb_spec 8 (update_phase g + 1)).
  - replace (update_phase g) with 7%Z by lia. reflexivity.
  - rewrite Z.mod_small by lia. reflexivity.
Qed.

Lemma sim_ticks_phase {S} tgt (h : handler S) n :
  forall g s,
    (0 <= update_phase g < 8)%Z ->
    update_phase (value (run h (sim_ticks tgt n g) s))
    = ((update_phase g + Z.of_nat n) mod 8)%Z.
Proof.
  induction n as [| n IH]; intros g s Hp.
  - cbn [sim_ticks run value]. rewrite Z.add_0_r, Z.mod_small by lia. reflexivity.
  - cbn [sim_ticks]. rewrite run_bind. cbn [value].
    rewrite IH; rewrite simulate_step_phase by exact Hp.
    + rewrite Zplus_mod_idemp_l. f_equal. lia.
    + apply Z.mod_pos_bound. lia.
Qed.

Lemma phase_cases k :
  (0 <= k < 8)%Z ->
  k = 0%Z \/ k = 1%Z \/ k = 2%Z \/ k = 3%Z \/
  k = 4%Z \/ k = 5%Z \/ k = 6%Z \/ k = 7%Z.
Proof. lia. Qed.

(** The blob of each phase: it is a C string, and its three fields read
    back as the progress, the fixed status and the label of the phase. *)
Lemma simulate_json_content_fields k :
  (0 <= k < 8)%Z ->
  cstring (simulate_json_content k) = simulate_json_content k /\
  parse_json_value (simulate_json_content k) (lit "progress") 32
    = Some (fmt_d (k * 100 / 8)) /\
  atoi (fmt_d (k * 100 / 8)) = (k * 100 / 8)%Z /\
  parse_json_value (simulate_json_content k) (lit "status") 64
    = Some (lit "System Updating...") /\
  parse_json_value (simulate_json_content k) (lit "step") 64
    = Some (nth (Z.to_nat k) update_steps []).
Proof.
  intros Hk.
  destruct (phase_cases k Hk) as [E|[E|[E|[E|[E|[E|[E|E]]]]]]]; subst k;
    vm_compute; repeat split; reflexivity.
Qed.

Lemma phase_progress_values p :
  (0 <= p < 8)%Z ->
  phase_progress p = (p * 100 / 8)%Z /\
  (100 <? phase_progress p)%Z = false /\
  simulate_progress p = phase_progress p /\
  In (simulate_progress p) [0; 12; 25; 37; 50; 62; 75; 87]%Z /\
  (simulate_progress p =? 100)%Z = false /\
  (nth (Z.to_nat p) update_steps [] = lit "Update complete." ->
   simulate_progress p = 87%Z).
Proof.
  intros Hp.
  destruct (phase_cases p Hp) as [E|[E|[E|[E|[E|[E|[E|E]]]]]]]; subst p;
    repeat split; try reflexivity;
    try (vm_compute; tauto);
    try (intros H; vm_compute in H; try discriminate H; reflexivity).
Qed.

(** C6.  Starting from phase 0, the tick that follows [n] simulator ticks
    works at phase [k = n mod 8] (so ticks 0 to 7 at phases 0 to 7, and the
    ninth again at phase 0, for ever): whatever the environment, the only
    content it hands to [fwrite] is the blob of phase [k], whose
    ["progress"] field is the decimal text of [floor (k * 100 / 8)], whose
    ["status"] is ["System Updating..."] and whose ["step"] is
    [update_steps[k]]; and it leaves the phase at [(k + 1) mod 8]. *)
Theorem simulator_cycle :
  forall (tgt : target) (S : Type) (h : handler S) (s : S) (g : statics)
         (n : nat),
    update_phase g = 0%Z ->
    let g_n := value (run h (sim_ticks tgt n g) s) in
    let k := (Z.of_nat n mod 8)%Z in
    update_phase g_n = k /\
    (forall s' : S,
        let r := run h (simulate_update_cycle tgt g_n) s' in
        written (trace r) =
          (if existsb is_open_for_write (trace r)
           then [simulate_json_content k] else []) /\
        update_phase (value r) = ((k + 1) mod 8)%Z) /\
    parse_json_value (simulate_json_content k) (lit "progress") 32
      = Some (fmt_d (k * 100 / 8)) /\
    atoi (fmt_d (k * 100 / 8)) = (k * 100 / 8)%Z /\
    parse_json_value (simulate_json_content k) (lit "status") 64
      = Some (lit "System Updating...") /\
    parse_json_value (simulate_json_content k) (lit "step") 64
      = Some (nth (Z.to_nat k) update_steps []).
Proof.
  intros tgt S h s g n Hg g_n k.
  assert (Hk : (0 <= k < 8)%Z) by (apply Z.mod_pos_bound; lia).
  assert (Hphase : update_phase g_n = k).
  { subst g_n k. rewrite sim_ticks_phase by lia. rewrite Hg. reflexivity. }
  destruct (simulate_json_content_fields k Hk) as (Hc & Hp & Ha & Hs & Hst).
  split; [exact Hphase |]. split; [| repeat split; assumption].
  intros s' r. split.
  - destruct (run_simulate_update_cycle tgt h g_n s') as [_ Htr].
    fold r in Htr. rewrite Hphase in Htr.
    destruct (write_file_contents_effect h (UPDATE_JSON_PATH tgt)
                (simulate_json_content k) s') as (Hw & _).
    rewrite Hc in Hw.
    remember (run h (write_file_contents (UPDATE_JSON_PATH tgt)
                       (simulate_json_content k)) s') as rw eqn:Erw.
    rewrite Htr, written_app, existsb_app, Hw.
    assert (Htail :
      forall tail,
        tail = Entry (Store (W_update_phase (int_wrap (k + 1)))) tt ::
               (if (num_phases <=? int_wrap (k + 1))%Z
                then [Entry (Store (W_update_phase 0)) tt] else []) ->
        written tail = [] /\ existsb is_open_for_write tail = false).
    { intros tail ->. destruct (_ <=? _)%Z; split; reflexivity. }
    destruct (Htail _ eq_refl) as [Ht1 Ht2].
    rewrite Ht1, Ht2, app_nil_r, orb_false_r. reflexivity.
  - subst r. rewrite simulate_step_phase by (rewrite Hphase; exact Hk).
    rewrite Hphase. reflexivity.
Qed.

(** Eleven ticks on an empty directory: the twelfth tick is at phase 3 and
    writes the blob of phase 3. *)
Lemma simulator_cycle_witness :
  let tgt := SimulatorBuild in
  let s := MemFS.empty_at 1700000000 in
  let g_n := value (run MemFS.handle (sim_ticks tgt 11 initial_statics) s) in
  let r := run MemFS.handle (simulate_update_cycle tgt g_n) s in
  update_phase initial_statics = 0%Z /\
  update_phase g_n = 3%Z /\
  written (trace r) = [simulate_json_content 3] /\
  update_phase (value r) = 4%Z.
Proof.
  intros tgt s g_n r.
  assert (H0 : update_phase initial_statics = 0%Z) by reflexivity.
  destruct (simulator_cycle tgt MemFS.os MemFS.handle s initial_statics 11 H0)
    as (Hphase & Htick & _).
  fold g_n in Hphase, Htick.
  destruct (Htick s) as [Hw Hnext]. fold r in Hw, Hnext.
  split; [exact H0 |]. split; [exact Hphase |]. split; [| exact Hnext].
  rewrite Hw. vm_compute. reflexivity.
Defined.

(** What a simulator tick does with the file, in every environment: it
    starts by opening the status file for writing, and what it hands to
    [fwrite] is the blob of its phase, once, if an open returned a stream,
    and nothing otherwise. *)
Lemma simulate_update_cycle_written {S} tgt (h : handler S) g s :
  let path := UPDATE_JSON_PATH tgt in
  let r := run h (simulate_update_cycle tgt g) s in
  hd_error (trace r)
    = Some (Entry (Fopen path ModeWb) (fst (h _ (Fopen path ModeWb) s))) /\
  written (trace r) =
    (if existsb is_open_for_write (trace r)
     then [cstring (simulate_json_content (update_phase g))] else []).
Proof.
  intros path r. subst r.
  destruct (run_simulate_update_cycle tgt h g s) as [_ Htr].
  cbv zeta in Htr. rewrite Htr. clear Htr.
  rewrite run_write_file_contents. cbv zeta. fold path.
  generalize (cstring (simulate_json_content (update_phase g))). intros c.
  destruct (h bool (Fopen path ModeWb) s) as [[|] s1]; cbn [fst].
  - destruct (h nat (Fwrite c) s1) as [k s2].
    destruct (num_phases <=? _)%Z; split; reflexivity.
  - destruct (h bool (Fopen path ModeWb) (snd (h unit (Mkdir (lit "tmp") 511) s1)))
      as [[|] s3].
    + destruct (h nat (Fwrite c) s3) as [k s4].
      destruct (num_phases <=? _)%Z; split; reflexivity.
    + destruct (num_phases <=? _)%Z; split; reflexivity.
Qed.

(** C10.  In every state reached by simulator ticks from phase 0, the phase
    [p] is between 0 and 7 and the progress computed for the next blob is
    [p * 100 / 8]: one of 0, 12, 25, 37, 50, 62, 75, 87.  The test
    [progress > 100] of line 412 is false there and the value is never 100.
    The next tick, in every environment, starts by opening the status file
    for writing and, when an open returns a stream, hands to [fwrite]
    exactly the blob of phase [p] (nothing otherwise); every payload it
    writes carries that progress and the label of phase [p], and a payload
    whose label is ["Update complete."] carries progress 87. *)
Theorem simulator_progress_never_complete :
  forall (tgt : target) (S : Type) (h : handler S) (s : S) (g : statics)
         (n : nat),
    update_phase g = 0%Z ->
    let g_n := value (run h (sim_ticks tgt n g) s) in
    let p := update_phase g_n in
    (0 <= p < 8)%Z /\
    phase_progress p = (p * 100 / 8)%Z /\
    (100 <? phase_progress p)%Z = false /\
    simulate_progress p = phase_progress p /\
    In (simulate_progress p) [0; 12; 25; 37; 50; 62; 75; 87]%Z /\
    (simulate_progress p =? 100)%Z = false /\
    parse_json_value (simulate_json_content p) (lit "progress") 32
      = Some (fmt_d (simulate_progress p)) /\
    (forall s' : S,
        let path := UPDATE_JSON_PATH tgt in
        let r := run h (simulate_update_cycle tgt g_n) s' in
        hd_error (trace r)
          = Some (Entry (Fopen path ModeWb) (fst (h _ (Fopen path ModeWb) s'))) /\
        (existsb is_open_for_write (trace r) = true ->
         written (trace r) = [simulate_json_content p]) /\
        (existsb is_open_for_write (trace r) = false ->
         written (trace r) = []) /\
        Forall (fun payload =>
                  written_progress payload = Some (simulate_progress p) /\
                  written_step payload
                    = Some (nth (Z.to_nat p) update_steps []) /\
                  (written_step payload = Some (lit "Update complete.") ->
                   written_progress payload = Some 87%Z))
               (written (trace r))) /\
    (nth (Z.to_nat p) update_steps [] = lit "Update complete." ->
     simulate_progress p = 87%Z) /\
    nth 7 update_steps [] = lit "Update complete." /\
    simulate_progress 7 = 87%Z.
Proof.
  intros tgt S h s g n Hg g_n p.
  assert (Hp : (0 <= p < 8)%Z).
  { subst p g_n. rewrite sim_ticks_phase by lia. apply Z.mod_pos_bound. lia. }
  destruct (phase_progress_values p Hp) as (H1 & H2 & H3 & H4 & H5 & H6).
  destruct (simulate_json_content_fields p Hp) as (Hc & Hf & Ha & _ & Hst).
  assert (Hblob :
    written_progress (simulate_json_content p) = Some (simulate_progress p) /\
    written_step (simulate_json_content p)
      = Some (nth (Z.to_nat p) update_steps []) /\
    (written_step (simulate_json_content p) = Some (lit "Update complete.") ->
     written_progress (simulate_json_content p) = Some 87%Z)).
  { assert (Hwp : written_progress (simulate_json_content p)
                  = Some (simulate_progress p)).
    { unfold written_progress. rewrite Hf. cbn [option_map].
      rewrite Ha, H3, H1. reflexivity. }
    split; [exact Hwp |]. split; [exact Hst |].
    unfold written_step at 1. rewrite Hst. intros E. injection E as E.
    rewrite Hwp, (H6 E). reflexivity. }
  split; [exact Hp |].
  split; [exact H1 |]. split; [exact H2 |]. split; [exact H3 |].
  split; [exact H4 |]. split; [exact H5 |].
  split; [rewrite Hf, H3, H1; reflexivity |].
  split; [| split; [exact H6 | split; reflexivity]].
  intros s' path r.
  destruct (simulate_update_cycle_written tgt h g_n s') as [Hhd Hw].
  fold path r in Hhd, Hw. fold p in Hw. rewrite Hc in Hw.
  split; [exact Hhd |].
  rewrite Hw. destruct (existsb is_open_for_write (trace r)).
  - split; [reflexivity |]. split; [discriminate |].
    constructor; [exact Hblob | constructor].
  - split; [discriminate |]. split; [reflexivity | constructor].
Qed.

(** Fifteen ticks on an empty directory leave the phase at 7; the
    sixteenth opens the file, writes the blob of phase 7, and what the
    file then holds reads back as progress 87 and ["Update complete."]. *)
Lemma simulator_progress_never_complete_witness :
  let tgt := SimulatorBuild in
  let s := MemFS.empty_at 1700000000 in
  let r15 := run MemFS.handle (sim_ticks tgt 15 initial_statics) s in
  let r := run MemFS.handle (simulate_update_cycle tgt (value r15)) (final r15) in
  update_phase initial_statics = 0%Z /\
  update_phase (value r15) = 7%Z /\
  (100 <? phase_progress (update_phase (value r15)))%Z = false /\
  existsb is_open_for_write (trace r) = true /\
  written (trace r) = [simulate_json_content 7] /\
  map written_progress (written (trace r)) = [Some 87%Z] /\
  map written_step (written (trace r)) = [Some (lit "Update complete.")].
Proof.
  intros tgt s r15 r.
  assert (H0 : update_phase initial_statics = 0%Z) by reflexivity.
  destruct (simulator_progress_never_complete tgt MemFS.os MemFS.handle s
              initial_statics 15 H0)
    as (_ & _ & Hclamp & _ & _ & _ & _ & Htick & _).
  fold r15 in Hclamp, Htick.
  destruct (Htick (final r15)) as (_ & Hopen & _ & Hall).
  fold r in Hopen, Hall.
  assert (H7 : update_phase (value r15) = 7%Z) by (vm_compute; reflexivity).
  assert (Ho : existsb is_open_for_write (trace r) = true)
    by (vm_compute; reflexivity).
  specialize (Hopen Ho). rewrite H7 in Hopen.
  split; [exact H0 |]. split; [exact H7 |]. split; [exact Hclamp |].
  split; [exact Ho |]. split; [exact Hopen |].
  rewrite Hopen. vm_compute. split; reflexivity.
Defined.

(* ===================================================================== *)
(** ** The field extractor against the scan of the specification *)
(* ===================================================================== *)

Section Extractor.

Import Reference.

Lemma strstr_find hay needle :
  strstr hay needle = option_map (fun i => skipn i hay) (find needle hay).
Proof.
  induction hay as [| c t IH]; simpl.
  - destruct (is_prefix needle []); reflexivity.
  - destruct (is_prefix needle (c :: t)); [reflexivity |].
    rewrite IH. destruct (find needle t); reflexivity.
Qed.

Lemma strchr_index_of s c :
  strchr s c = option_map (fun j => skipn j s) (index_of c s).
Proof.
  induction s as [| a t IH]; simpl; [reflexivity |].
  destruct (Ascii.eqb a c); [reflexivity |].
  rewrite IH. destruct (index_of c t); reflexivity.
Qed.

Lemma index_of_bound c s j : index_of c s = Some j -> j < length s.
Proof.
  revert j. induction s as [| a t IH]; simpl; intros j H; [discriminate |].
  destruct (Ascii.eqb a c).
  - injection H as <-. lia.
  - destruct (index_of c t) as [k |]; [| discriminate].
    injection H as <-. specialize (IH k eq_refl). lia.
Qed.

Lemma tl_skipn (j : nat) (s : list ascii) : tl (skipn j s) = skipn (S j) s.
Proof.
  revert s. induction j as [| j IH]; intros [| a t]; try reflexivity.
  exact (IH t).
Qed.

Lemma skip_while_drop_while p s : skip_while p s = drop_while p s.
Proof.
  induction s as [| a t IH]; simpl; [reflexivity |].
  destruct (p a); [exact IH | reflexivity].
Qed.

Lemma drop_while_ext p q s :
  (forall c, p c = q c) -> drop_while p s = drop_while q s.
Proof.
  intros H. induction s as [| a t IH]; simpl; [reflexivity |].
  rewrite H, IH. reflexivity.
Qed.

Lemma take_while_ext p q s :
  (forall c, p c = q c) -> take_while p s = take_while q s.
Proof.
  intros H. induction s as [| a t IH]; simpl; [reflexivity |].
  rewrite H, IH. reflexivity.
Qed.

Lemma is_json_ws_whitespace c : is_json_ws c = is_whitespace c.
Proof.
  unfold is_json_ws, is_whitespace. simpl.
  destruct (Ascii.eqb c SPACE), (Ascii.eqb c TAB), (Ascii.eqb c LF),
    (Ascii.eqb c CR); reflexivity.
Qed.

Lemma is_token_char_ends c : is_token_char c = negb (ends_bare_token c).
Proof.
  unfold is_token_char, ends_bare_token. simpl.
  destruct (Ascii.eqb c COMMA), (Ascii.eqb c RBRACE), (Ascii.eqb c SPACE),
    (Ascii.eqb c TAB), (Ascii.eqb c LF), (Ascii.eqb c CR); reflexivity.
Qed.

Lemma skip_while_length p s : length (skip_while p s) <= length s.
Proof.
  induction s as [| a t IH]; simpl; [lia |].
  destruct (p a); simpl; lia.
Qed.

Lemma take_while_firstn p v :
  firstn (ptr_diff (skip_while p v) v) v = take_while p v.
Proof.
  unfold ptr_diff. induction v as [| a t IH]; [reflexivity |].
  cbn [skip_while take_while]. destruct (p a).
  - pose proof (skip_while_length p t).
    cbn [length].
    replace (S (length t) - length (skip_while p t))
      with (S (length t - length (skip_while p t))) by lia.
    cbn [firstn]. rewrite IH. reflexivity.
  - rewrite Nat.sub_diag. reflexivity.
Qed.

Lemma copy_value_truncate start len max_len :
  copy_value start len max_len = truncate max_len (firstn len start).
Proof.
  unfold copy_value, truncate. rewrite firstn_firstn.
  destruct (Nat.leb_spec max_len len); f_equal; lia.
Qed.

Lemma snprintf_fits size text :
  length text < size -> snprintf size text = text.
Proof. intros H. unfold snprintf. apply firstn_all2. lia. Qed.

(** The C function and the scan of section 4.2 agree whenever the quoted
    key fits the 64-byte search buffer. *)
Lemma parse_json_value_extract json key max_len :
  length (cstring key) <= 61 ->
  parse_json_value json key max_len
  = extract (cstring json) (cstring key) max_len.
Proof.
  intros Hkey. unfold parse_json_value, extract.
  rewrite snprintf_fits
    by (rewrite !length_app; simpl; lia).
  fold (quoted (cstring key)).
  rewrite strstr_find.
  destruct (find (quoted (cstring key)) (cstring json)) as [i |];
    [| reflexivity].
  cbn [option_map]. rewrite skipn_skipn, strchr_index_of.
  rewrite (Nat.add_comm (length (quoted (cstring key))) i).
  destruct (index_of COLON _) as [j |]; [| reflexivity].
  cbn [option_map]. rewrite tl_skipn, skip_while_drop_while.
  rewrite (drop_while_ext _ _ _ is_json_ws_whitespace).
  destruct (drop_while is_whitespace _) as [| c body].
  - cbn. rewrite copy_value_truncate. reflexivity.
  - cbn [deref hd tl]. destruct (Ascii.eqb c DQUOTE).
    + rewrite strchr_index_of.
      destruct (index_of DQUOTE body) as [k |] eqn:Hk; [| reflexivity].
      cbn [option_map]. rewrite copy_value_truncate. unfold ptr_diff.
      rewrite length_skipn. apply index_of_bound in Hk.
      replace (length body - (length body - k)) with k by lia.
      reflexivity.
    + rewrite copy_value_truncate, take_while_firstn.
      rewrite (take_while_ext _ _ _ is_token_char_ends). reflexivity.
Qed.

End Extractor.

Section ExtractorShapes.

Import Reference.

Lemma is_prefix_app needle tail : is_prefix needle (needle ++ tail) = true.
Proof.
  induction needle as [| a t IH]; simpl; [reflexivity |].
  rewrite Ascii.eqb_refl. exact IH.
Qed.

Lemma no_match_shift needle c t n start :
  forallb (fun i => negb (is_prefix needle (skipn i (c :: t)))) (seq (S start) n)
  = forallb (fun i => negb (is_prefix needle (skipn i t))) (seq start n).
Proof.
  revert start. induction n as [| n IH]; intros start; simpl; [reflexivity |].
  rewrite IH. reflexivity.
Qed.

Lemma no_match_before_cons needle c t n :
  no_match_before needle (c :: t) (S n)
  = negb (is_prefix needle (c :: t)) && no_match_before needle t n.
Proof.
  unfold no_match_before. cbn [seq forallb skipn].
  rewrite no_match_shift. reflexivity.
Qed.

Lemma find_first_occurrence pre needle tail :
  no_match_before needle (pre ++ needle ++ tail) (length pre) = true ->
  find needle (pre ++ needle ++ tail) = Some (length pre).
Proof.
  induction pre as [| c t IH]; intros H.
  - cbn [app length]. pose proof (is_prefix_app needle tail) as Hp.
    destruct (needle ++ tail) as [| a l]; simpl; rewrite Hp; reflexivity.
  - cbn [app length] in *. rewrite no_match_before_cons in H.
    apply andb_true_iff in H. destruct H as [H1 H2].
    apply negb_true_iff in H1. cbn [find]. rewrite H1, (IH H2). reflexivity.
Qed.

Lemma skipn_app_exact (a b : list ascii) : skipn (length a) (a ++ b) = b.
Proof.
  rewrite skipn_app, skipn_all, Nat.sub_diag. reflexivity.
Qed.

Lemma drop_while_app p ws v :
  forallb p ws = true -> drop_while p (ws ++ v) = drop_while p v.
Proof.
  induction ws as [| a t IH]; simpl; intros H; [reflexivity |].
  apply andb_true_iff in H. destruct H as [H1 H2]. rewrite H1. exact (IH H2).
Qed.

Lemma take_while_app p v rest :
  forallb p v = true ->
  match rest with [] => true | c :: _ => negb (p c) end = true ->
  take_while p (v ++ rest) = v.
Proof.
  intros Hv Hr. induction v as [| a t IH]; simpl.
  - destruct rest as [| c l]; [reflexivity |].
    simpl. apply negb_true_iff in Hr. rewrite Hr. reflexivity.
  - simpl in Hv. apply andb_true_iff in Hv. destruct Hv as [H1 H2].
    rewrite H1, (IH H2). reflexivity.
Qed.

Lemma index_of_app c text rest :
  forallb (fun a => negb (Ascii.eqb a c)) text = true ->
  index_of c (text ++ c :: rest) = Some (length text).
Proof.
  induction text as [| a t IH]; simpl; intros H.
  - rewrite Ascii.eqb_refl. reflexivity.
  - apply andb_true_iff in H. destruct H as [H1 H2].
    apply negb_true_iff in H1. rewrite H1, (IH H2). reflexivity.
Qed.

(** A digit or a minus sign is neither white space, nor a quote, nor one of
    the characters that end a bare token. *)
Lemma integer_char_plain c :
  isdigit c = true \/ c = "-"%char ->
  ends_bare_token c = false /\ is_whitespace c = false /\
  Ascii.eqb c DQUOTE = false.
Proof.
  intros [H | ->]; [| repeat split; reflexivity].
  destruct c as [[] [] [] [] [] [] [] []];
    vm_compute in H; try discriminate H; repeat split; reflexivity.
Qed.

Lemma bare_integer_plain v :
  is_bare_integer v = true ->
  forallb (fun a => negb (ends_bare_token a)) v = true /\
  exists c d, v = c :: d /\ is_whitespace c = false /\
              Ascii.eqb c DQUOTE = false.
Proof.
  assert (Hdigits : forall l, forallb isdigit l = true ->
            forallb (fun a => negb (ends_bare_token a)) l = true).
  { induction l as [| a t IH]; simpl; intros H; [reflexivity |].
    apply andb_true_iff in H. destruct H as [H1 H2].
    destruct (integer_char_plain a (or_introl H1)) as (E & _).
    rewrite E, (IH H2). reflexivity. }
  destruct v as [| c d]; [discriminate |]. unfold is_bare_integer.
  destruct (Ascii.eqb_spec c "-"%char) as [-> | Hc]; intros H.
  - apply andb_true_iff in H. destruct H as [_ Hd]. split.
    + simpl. rewrite (Hdigits d Hd). reflexivity.
    + exists "-"%char, d. repeat split; reflexivity.
  - split; [exact (Hdigits _ H) |].
    simpl in H. apply andb_true_iff in H. destruct H as [H1 _].
    destruct (integer_char_plain c (or_introl H1)) as (_ & Ews & Eq).
    exists c, d. repeat split; assumption.
Qed.

Variable key : list ascii.
Variable max_len : nat.
Hypothesis key_fits : length (cstring key) <= 61.

Let qkey := quoted (cstring key).

Lemma extract_after_key json pre tail :
  cstring json = pre ++ qkey ++ [COLON] ++ tail ->
  no_match_before qkey (cstring json) (length pre) = true ->
  parse_json_value json key max_len =
  match drop_while is_whitespace tail with
  | c :: body =>
      if Ascii.eqb c DQUOTE then
        match index_of DQUOTE body with
        | None => None
        | Some k => Some (truncate max_len (firstn k body))
        end
      else
        Some (truncate max_len
                (take_while (fun a => negb (ends_bare_token a)) (c :: body)))
  | [] => Some (truncate max_len [])
  end.
Proof.
  intros Hjson Hfirst.
  rewrite parse_json_value_extract by exact key_fits.
  unfold extract. fold qkey. rewrite Hjson in *.
  rewrite (find_first_occurrence pre qkey ([COLON] ++ tail) Hfirst).
  rewrite <- length_app, app_assoc, skipn_app_exact.
  cbn [app index_of]. rewrite Ascii.eqb_refl. cbn [skipn].
  destruct (drop_while is_whitespace tail) as [| c body]; reflexivity.
Qed.

Lemma parse_bare_integer json pre ws N rest :
  cstring json = pre ++ qkey ++ [COLON] ++ ws ++ N ++ rest ->
  no_match_before qkey (cstring json) (length pre) = true ->
  forallb is_whitespace ws = true ->
  is_bare_integer N = true ->
  ends_here rest = true ->
  length N < max_len ->
  parse_json_value json key max_len = Some N.
Proof.
  intros Hjson Hfirst Hws HN Hrest Hlen.
  rewrite (extract_after_key json pre (ws ++ N ++ rest) Hjson Hfirst).
  rewrite (drop_while_app _ _ _ Hws).
  destruct (bare_integer_plain N HN) as (Htok & c & d & -> & Ec & Eq).
  cbn [app drop_while]. rewrite Ec, Eq.
  change (c :: d ++ rest) with ((c :: d) ++ rest).
  rewrite take_while_app.
  - unfold truncate. rewrite firstn_all2 by lia. reflexivity.
  - exact Htok.
  - destruct rest as [| r l]; [reflexivity |].
    simpl in Hrest. rewrite Hrest. reflexivity.
Qed.

Lemma parse_quoted_text json pre ws text rest :
  cstring json
    = pre ++ qkey ++ [COLON] ++ ws ++ [DQUOTE] ++ text ++ [DQUOTE] ++ rest ->
  no_match_before qkey (cstring json) (length pre) = true ->
  forallb is_whitespace ws = true ->
  forallb (fun a => negb (Ascii.eqb a DQUOTE)) text = true ->
  length text < max_len ->
  parse_json_value json key max_len = Some text.
Proof.
  intros Hjson Hfirst Hws Htext Hlen.
  rewrite (extract_after_key json pre
             (ws ++ [DQUOTE] ++ text ++ [DQUOTE] ++ rest) Hjson Hfirst).
  rewrite (drop_while_app _ _ _ Hws).
  cbn [app drop_while]. change (is_whitespace DQUOTE) with false.
  cbv iota. rewrite Ascii.eqb_refl.
  rewrite (index_of_app DQUOTE text rest Htext).
  unfold truncate. rewrite firstn_app, firstn_all, Nat.sub_diag.
  cbn [firstn]. rewrite app_nil_r. rewrite firstn_all2 by lia. reflexivity.
Qed.

End ExtractorShapes.

(** C4, the claim as written, on four payloads.  The first contains
    ["progress": 5], yet the quoted key text occurs earlier, as a value, and
    the scan returns the value after the next colon, ["1"].  In the second
    the integer is followed by a character that does not end a bare token
    and comes back with it.  The third and fourth hold an integer of 40
    digits and a quote-free status text of 70 characters: 31 and 63 of them
    come back. *)
Lemma C4_counterexample_not_every_payload :
  parse_json_value
    (lit "{ 'step': 'progress', 'n': 1, " ++ lit "'progress': 5" ++ lit " }")
    (lit "progress") 32 = Some (lit "1") /\
  parse_json_value (lit "[{ " ++ lit "'progress': 5" ++ lit "]}")
    (lit "progress") 32 = Some (lit "5]") /\
  parse_json_value
    (lit "{ " ++ lit "'progress': " ++ repeat "7"%char 40 ++ lit " }")
    (lit "progress") 32 = Some (repeat "7"%char 31) /\
  parse_json_value
    (lit "{ " ++ lit "'status': '" ++ repeat "x"%char 70 ++ lit "' }")
    (lit "status") 64 = Some (repeat "x"%char 63).
Proof. vm_compute. repeat split; reflexivity. Qed.

(** C4 (amended).  For a key whose quoted form fits the 64-byte search
    buffer (at most 61 bytes) and a destination of at least one byte,
    [parse_json_value] is the scan of section 4.2 on the C strings it is
    given.  In particular, when the first occurrence of the quoted key in
    the payload is followed by a colon, white space and a bare integer [N]
    shorter than [max_len] that ends the payload or is followed by a comma,
    a closing brace, a space, a tab, CR or LF, the result is exactly [N];
    and when it is followed by a colon, white space and a quoted,
    quote-free text shorter than [max_len], the result is exactly that
    text. *)
Theorem parse_json_value_reference_scan :
  forall (key : list ascii) (max_len : nat),
    length (cstring key) <= 61 ->
    0 < max_len ->
    let qkey := Reference.quoted (cstring key) in
    (forall json : list ascii,
        parse_json_value json key max_len
        = Reference.extract (cstring json) (cstring key) max_len) /\
    (forall json pre ws N rest : list ascii,
        cstring json = pre ++ qkey ++ [COLON] ++ ws ++ N ++ rest ->
        Reference.no_match_before qkey (cstring json) (length pre) = true ->
        forallb Reference.is_whitespace ws = true ->
        Reference.is_bare_integer N = true ->
        Reference.ends_here rest = true ->
        length N < max_len ->
        parse_json_value json key max_len = Some N) /\
    (forall json pre ws text rest : list ascii,
        cstring json
          = pre ++ qkey ++ [COLON] ++ ws ++ [DQUOTE] ++ text ++ [DQUOTE] ++ rest ->
        Reference.no_match_before qkey (cstring json) (length pre) = true ->
        forallb Reference.is_whitespace ws = true ->
        forallb (fun a => negb (Ascii.eqb a DQUOTE)) text = true ->
        length text < max_len ->
        parse_json_value json key max_len = Some text).
Proof.
  intros key max_len Hkey Hmax qkey. split; [| split].
  - intros json. exact (parse_json_value_extract json key max_len Hkey).
  - intros json pre ws N rest.
    exact (parse_bare_integer key max_len Hkey json pre ws N rest).
  - intros json pre ws text rest.
    exact (parse_quoted_text key max_len Hkey json pre ws text rest).
Qed.

(** The two shapes on the default content: ["progress": 0] after the
    opening brace, and ["status": "System Ready"] on the third line. *)
Lemma parse_json_value_reference_scan_witness :
  (length (cstring (lit "progress")) <= 61 /\ 0 < 32 /\
   length (cstring (lit "status")) <= 61 /\ 0 < 64) /\
  parse_json_value default_json (lit "progress") 32 = Some (lit "0") /\
  parse_json_value default_json (lit "status") 64 = Some (lit "System Ready").
Proof.
  assert (K1 : length (cstring (lit "progress")) <= 61) by (vm_compute; lia).
  assert (K2 : length (cstring (lit "status")) <= 61) by (vm_compute; lia).
  assert (M1 : 0 < 32) by lia.
  assert (M2 : 0 < 64) by lia.
  split; [exact (conj K1 (conj M1 (conj K2 M2))) |]. split.
  - destruct (parse_json_value_reference_scan (lit "progress") 32 K1 M1)
      as (_ & Hint & _).
    apply (Hint default_json (line "{" ++ lit "    ") [SPACE] (lit "0")
             (line "," ++
              line "    'status': 'System Ready'," ++
              line "    'step': 'Waiting for update'" ++
              line "}"));
      try (vm_compute; reflexivity).
    vm_compute. lia.
  - destruct (parse_json_value_reference_scan (lit "status") 64 K2 M2)
      as (_ & _ & Htext).
    apply (Htext default_json
             (line "{" ++ line "    'progress': 0," ++ lit "    ")
             [SPACE] (lit "System Ready")
             (line "," ++ line "    'step': 'Waiting for update'" ++ line "}"));
      try (vm_compute; reflexivity).
    vm_compute. lia.
Defined.

(* ===================================================================== *)
(** ** Beyond the claims: bounds and failures of the extractor *)
(* ===================================================================== *)

Section ExtractorBounds.

Lemma cstring_is_c_text buf : is_c_text (cstring buf) = true.
Proof.
  induction buf as [| c t IH]; simpl; [reflexivity |].
  destruct (Ascii.eqb c NUL) eqn:E; simpl; [reflexivity |].
  rewrite E. exact IH.
Qed.

Lemma is_c_text_app a b :
  is_c_text (a ++ b) = is_c_text a && is_c_text b.
Proof. unfold is_c_text. apply forallb_app. Qed.

Lemma strstr_suffix hay needle p :
  strstr hay needle = Some p -> exists pre, hay = pre ++ p.
Proof.
  induction hay as [| c t IH]; simpl.
  - destruct (is_prefix needle []); intros H; [| discriminate].
    injection H as <-. exists []. reflexivity.
  - destruct (is_prefix needle (c :: t)); intros H.
    + injection H as <-. exists []. reflexivity.
    + destruct (IH H) as [pre E]. exists (c :: pre). rewrite E. reflexivity.
Qed.

Lemma strchr_suffix s c p :
  strchr s c = Some p -> exists pre, s = pre ++ p.
Proof.
  induction s as [| a t IH]; simpl; [discriminate |].
  destruct (Ascii.eqb a c); intros H.
  - injection H as <-. exists []. reflexivity.
  - destruct (IH H) as [pre E]. exists (a :: pre). rewrite E. reflexivity.
Qed.

Lemma skip_while_suffix p s : exists pre, s = pre ++ skip_while p s.
Proof.
  induction s as [| a t IH]; simpl; [exists []; reflexivity |].
  destruct (p a); [| exists []; reflexivity].
  destruct IH as [pre E]. exists (a :: pre). simpl. rewrite <- E. reflexivity.
Qed.

Lemma skipn_suffix (n : nat) (s : list ascii) : exists pre, s = pre ++ skipn n s.
Proof. exists (firstn n s). symmetry. apply firstn_skipn. Qed.

Lemma tl_suffix (s : list ascii) : exists pre, s = pre ++ tl s.
Proof. destruct s as [| a t]; [exists [] | exists [a]]; reflexivity. Qed.

Lemma copy_value_bounded start len max_len :
  0 < max_len ->
  length (copy_value start len max_len) <= max_len - 1 /\
  exists post, start = copy_value start len max_len ++ post.
Proof.
  intros Hmax. unfold copy_value. split.
  - rewrite length_firstn. destruct (Nat.leb_spec max_len len); lia.
  - eexists. symmetry. apply firstn_skipn.
Qed.

(** Where the value comes from: a stretch of the payload. *)
Lemma parse_json_value_inside json key max_len v :
  0 < max_len ->
  parse_json_value json key max_len = Some v ->
  length v <= max_len - 1 /\
  exists pre post, cstring json = pre ++ v ++ post.
Proof.
  intros Hmax. unfold parse_json_value.
  destruct (strstr _ _) as [key_pos |] eqn:Hs; [| discriminate].
  destruct (strstr_suffix _ _ _ Hs) as [p1 E1].
  destruct (skipn_suffix (length (snprintf 64 ([DQUOTE] ++ cstring key ++ [DQUOTE])))
              key_pos) as [p2 E2].
  destruct (strchr _ COLON) as [colon |] eqn:Hc; [| discriminate].
  destruct (strchr_suffix _ _ _ Hc) as [p3 E3].
  destruct (tl_suffix colon) as [p4 E4].
  destruct (skip_while_suffix is_json_ws (tl colon)) as [p5 E5].
  set (start := skip_while is_json_ws (tl colon)) in *.
  assert (Hstart : exists pre, cstring json = pre ++ start).
  { exists (p1 ++ p2 ++ p3 ++ p4 ++ p5).
    rewrite E1, E2, E3, E4, E5 at 1. rewrite !app_assoc. reflexivity. }
  destruct Hstart as [pre Hpre].
  destruct (Ascii.eqb (deref start) DQUOTE).
  - destruct (strchr (tl start) DQUOTE) as [value_end |]; [| discriminate].
    intros H. injection H as <-.
    destruct (copy_value_bounded (tl start)
                (ptr_diff value_end (tl start)) max_len Hmax) as [Hlen [post Hpost]].
    split; [exact Hlen |].
    destruct (tl_suffix start) as [q Eq].
    exists (pre ++ q), post. rewrite Hpre, Eq at 1. rewrite Hpost at 1.
    rewrite !app_assoc. reflexivity.
  - intros H. injection H as <-.
    destruct (copy_value_bounded start
                (ptr_diff (skip_while is_token_char start) start) max_len Hmax)
      as [Hlen [post Hpost]].
    split; [exact Hlen |].
    exists pre, post. rewrite Hpre. rewrite Hpost at 1. reflexivity.
Qed.

Lemma parse_json_value_c_text json key max_len v :
  0 < max_len ->
  parse_json_value json key max_len = Some v ->
  is_c_text v = true.
Proof.
  intros Hmax H.
  destruct (parse_json_value_inside json key max_len v Hmax H)
    as (_ & pre & post & E).
  pose proof (cstring_is_c_text json) as Hc. rewrite E in Hc.
  rewrite !is_c_text_app in Hc.
  apply andb_true_iff in Hc. destruct Hc as [_ Hc].
  apply andb_true_iff in Hc. destruct Hc as [Hc _]. exact Hc.
Qed.

End ExtractorBounds.

(** X1.  Whatever the payload and the key, a successful extraction leaves
    in the destination a C string of at most [max_len - 1] bytes (so the
    terminator fits the [max_len] bytes of the buffer), free of NUL, and
    copied from one stretch of the payload. *)
Theorem parse_json_value_bounded :
  forall (json key : list ascii) (max_len : nat) (v : list ascii),
    0 < max_len ->
    parse_json_value json key max_len = Some v ->
    length v <= max_len - 1 /\
    is_c_text v = true /\
    occurs v (cstring json).
Proof.
  intros json key max_len v Hmax H.
  destruct (parse_json_value_inside json key max_len v Hmax H) as [Hlen Hocc].
  split; [exact Hlen |]. split; [| exact Hocc].
  exact (parse_json_value_c_text json key max_len v Hmax H).
Qed.

(** A step text of 70 bytes extracted into the 64-byte field. *)
Lemma parse_json_value_bounded_witness :
  let json := lit "{ 'step': '" ++ repeat "s"%char 70 ++ lit "' }" in
  (0 < 64 /\ parse_json_value json (lit "step") 64 = Some (repeat "s"%char 63)) /\
  length (repeat "s"%char 63) <= 64 - 1.
Proof.
  intros json.
  assert (H0 : 0 < 64) by lia.
  assert (H1 : parse_json_value json (lit "step") 64 = Some (repeat "s"%char 63))
    by (vm_compute; reflexivity).
  split; [exact (conj H0 H1) |].
  exact (proj1 (parse_json_value_bounded json (lit "step") 64 _ H0 H1)).
Defined.

Section ExtractorFailures.

Import Reference.

Lemma is_prefix_split needle s :
  is_prefix needle s = true -> s = needle ++ skipn (length needle) s.
Proof.
  revert s. induction needle as [| a t IH]; intros s H; [reflexivity |].
  destruct s as [| b s']; [discriminate |]. simpl in H.
  apply andb_true_iff in H. destruct H as [Hab Ht].
  apply Ascii.eqb_eq in Hab. subst b. simpl. f_equal. exact (IH s' Ht).
Qed.

Lemma find_some needle text i :
  find needle text = Some i ->
  text = firstn i text ++ needle ++ skipn (i + length needle) text /\
  length (firstn i text) = i /\
  no_match_before needle text i = true.
Proof.
  revert i. induction text as [| c t IH]; intros i H.
  - simpl in H. destruct (is_prefix needle []) eqn:Hp; [| discriminate].
    injection H as <-. split; [| split; reflexivity].
    exact (is_prefix_split needle [] Hp).
  - cbn [find] in H. destruct (is_prefix needle (c :: t)) eqn:Hp.
    + injection H as <-. split; [| split; reflexivity].
      exact (is_prefix_split needle (c :: t) Hp).
    + destruct (find needle t) as [j |]; [| discriminate].
      injection H as <-. destruct (IH j eq_refl) as (E & L & N).
      split; [| split].
      * cbn [firstn skipn app Nat.add]. f_equal. exact E.
      * cbn [firstn length]. f_equal. exact L.
      * rewrite no_match_before_cons, Hp, N. reflexivity.
Qed.

Lemma find_occurs needle text :
  occurs needle text -> exists i, find needle text = Some i.
Proof.
  intros (pre & post & ->). induction pre as [| c t IH].
  - cbn [app]. pose proof (is_prefix_app needle post) as Hp.
    destruct (needle ++ post) as [| a l]; simpl; rewrite Hp; eauto.
  - cbn [app find]. destruct (is_prefix needle _); [eauto |].
    destruct IH as [i ->]. simpl. eauto.
Qed.

Lemma index_of_none c s :
  index_of c s = None <-> forallb (fun a => negb (Ascii.eqb a c)) s = true.
Proof.
  induction s as [| a t IH]; simpl; [tauto |].
  destruct (Ascii.eqb a c); simpl.
  - split; discriminate.
  - rewrite <- IH. destruct (index_of c t); simpl; split; congruence.
Qed.

Lemma index_of_some c s j :
  index_of c s = Some j ->
  s = firstn j s ++ [c] ++ skipn (S j) s /\
  forallb (fun a => negb (Ascii.eqb a c)) (firstn j s) = true /\
  length (firstn j s) = j.
Proof.
  revert j. induction s as [| a t IH]; intros j H; [discriminate |].
  simpl in H. destruct (Ascii.eqb a c) eqn:E.
  - injection H as <-. apply Ascii.eqb_eq in E. subst a. repeat split.
  - destruct (index_of c t) as [k |]; [| discriminate].
    injection H as <-. destruct (IH k eq_refl) as (E1 & E2 & E3).
    cbn [firstn skipn app forallb length]. rewrite E, E2, E3. repeat split.
    f_equal. exact E1.
Qed.

Lemma take_drop_while p s :
  s = take_while p s ++ drop_while p s /\ forallb p (take_while p s) = true.
Proof.
  induction s as [| a t IH]; simpl; [split; reflexivity |].
  destruct (p a) eqn:E; simpl; [| split; reflexivity].
  destruct IH as [E1 E2]. rewrite E, E2. split; [f_equal; exact E1 | reflexivity].
Qed.

Lemma extract_after_none max_len post :
  match index_of COLON post with
  | None => None
  | Some j =>
      match drop_while is_whitespace (skipn (S j) post) with
      | c :: body =>
          if Ascii.eqb c DQUOTE then
            match index_of DQUOTE body with
            | None => None
            | Some k => Some (truncate max_len (firstn k body))
            end
          else
            Some (truncate max_len
                    (take_while (fun a => negb (ends_bare_token a)) (c :: body)))
      | [] => Some (truncate max_len [])
      end
  end = None <-> fails_after post.
Proof.
  unfold fails_after. split.
  - destruct (index_of COLON post) as [j |] eqn:Hj.
    + destruct (index_of_some _ _ _ Hj) as (E & Hgap & _).
      destruct (take_drop_while is_whitespace (skipn (S j) post)) as [Ews Hws].
      destruct (drop_while is_whitespace (skipn (S j) post)) as [| c body];
        [discriminate |].
      destruct (Ascii.eqb_spec c DQUOTE) as [-> | _]; [| discriminate].
      destruct (index_of DQUOTE body) eqn:Hq; [discriminate |].
      intros _. right.
      exists (firstn j post), (take_while is_whitespace (skipn (S j) post)), body.
      repeat split; try assumption.
      * rewrite E at 1. f_equal. cbn [app]. f_equal. exact Ews.
      * apply index_of_none. exact Hq.
    + intros _. left. apply index_of_none. exact Hj.
  - intros [Hno | (gap & ws & body & -> & Hgap & Hws & Hbody)].
    + apply index_of_none in Hno. rewrite Hno. reflexivity.
    + cbn [app]. rewrite (index_of_app COLON gap _ Hgap).
      change (gap ++ COLON :: ws ++ DQUOTE :: body)
        with (gap ++ [COLON] ++ ws ++ DQUOTE :: body).
      rewrite app_assoc.
      replace (S (length gap)) with (length (gap ++ [COLON]))
        by (rewrite length_app; simpl; lia).
      rewrite skipn_app_exact, (drop_while_app _ _ _ Hws).
      cbn [drop_while]. change (is_whitespace DQUOTE) with false. cbv iota.
      rewrite Ascii.eqb_refl.
      apply index_of_none in Hbody. rewrite Hbody. reflexivity.
Qed.

Lemma parse_json_value_none json key max_len :
  length (cstring key) <= 61 ->
  let text := cstring json in
  let q := quoted (cstring key) in
  parse_json_value json key max_len = None <->
  (~ occurs q text \/
   exists pre post,
     text = pre ++ q ++ post /\
     no_match_before q text (length pre) = true /\
     fails_after post).
Proof.
  intros Hkey text q.
  rewrite (parse_json_value_extract json key max_len Hkey).
  unfold extract. fold text q. split.
  - destruct (find q text) as [i |] eqn:Hf.
    + destruct (find_some q text i Hf) as (E & L & N).
      intros H. right.
      exists (firstn i text), (skipn (i + length q) text).
      split; [exact E |]. split; [rewrite L; exact N |].
      apply (extract_after_none max_len). cbv zeta in H.
      destruct (index_of COLON _) as [j |]; [| reflexivity].
      destruct (drop_while _ _) as [| c body]; exact H.
    + intros _. left. intros Hocc.
      destruct (find_occurs q text Hocc) as [i Hi]. congruence.
  - intros [Habsent | (pre & post & E & N & Hfail)].
    + destruct (find q text) as [i |] eqn:Hf; [| reflexivity].
      exfalso. apply Habsent.
      destruct (find_some q text i Hf) as (E & _).
      exists (firstn i text), (skipn (i + length q) text). exact E.
    + rewrite E in N |- *.
      rewrite (find_first_occurrence pre q post N).
      rewrite <- length_app, app_assoc, skipn_app_exact.
      apply (extract_after_none max_len) in Hfail. cbv zeta.
      destruct (index_of COLON post) as [j |]; [| reflexivity].
      destruct (drop_while _ _) as [| c body]; exact Hfail.
Qed.

End ExtractorFailures.

(** X2.  For a key that fits the search buffer, the extraction fails in
    exactly these cases: the quoted key does not occur in the payload; or,
    after its first occurrence, there is no colon; or the colon is followed
    by white space and an opening quote that is never closed.  In every
    other case it succeeds (possibly with an empty value). *)
Theorem parse_json_value_fails_exactly_when :
  forall (json key : list ascii) (max_len : nat),
    length (cstring key) <= 61 ->
    let text := cstring json in
    let q := Reference.quoted (cstring key) in
    parse_json_value json key max_len = None <->
    (~ occurs q text \/
     exists pre post,
       text = pre ++ q ++ post /\
       Reference.no_match_before q text (length pre) = true /\
       fails_after post).
Proof.
  intros json key max_len Hkey.
  exact (parse_json_value_none json key max_len Hkey).
Qed.

(** A status key that is not followed by a colon. *)
Lemma parse_json_value_fails_exactly_when_witness :
  length (cstring (lit "status")) <= 61 /\
  parse_json_value (lit "{ 'status' 'ready' }") (lit "status") 64 = None.
Proof.
  assert (K : length (cstring (lit "status")) <= 61) by (vm_compute; lia).
  split; [exact K |].
  apply (parse_json_value_fails_exactly_when
           (lit "{ 'status' 'ready' }") (lit "status") 64 K).
  right. exists (lit "{ "), (lit " 'ready' }").
  split; [reflexivity |]. split; [reflexivity |].
  left. reflexivity.
Defined.

Lemma snprintf_long_key (k : list ascii) :
  62 <= length k ->
  snprintf 64 ([DQUOTE] ++ k ++ [DQUOTE]) = DQUOTE :: firstn 62 k.
Proof.
  intros H. unfold snprintf.
  change (64 - 1) with (S 62).
  change ([DQUOTE] ++ k ++ [DQUOTE]) with (DQUOTE :: (k ++ [DQUOTE])).
  rewrite firstn_cons. f_equal.
  rewrite firstn_app. replace (62 - length k) with 0 by lia.
  rewrite firstn_O. apply app_nil_r.
Qed.

(** X3.  A key of 62 bytes or more does not fit the 64-byte search buffer:
    [snprintf] cuts the closing quote (and any byte after the 62nd), so the
    scan looks for the opening quote followed by the first 62 bytes of the
    key.  Two such keys that agree on their first 62 bytes are
    indistinguishable, on every payload. *)
Theorem parse_json_value_long_key_prefix :
  forall (json key key' : list ascii) (max_len : nat),
    62 <= length (cstring key) ->
    62 <= length (cstring key') ->
    firstn 62 (cstring key) = firstn 62 (cstring key') ->
    parse_json_value json key max_len = parse_json_value json key' max_len.
Proof.
  intros json key key' max_len H1 H2 E. unfold parse_json_value.
  rewrite (snprintf_long_key _ H1), (snprintf_long_key _ H2), E. reflexivity.
Qed.

(** A key of 62 letters finds the value stored under a key of 63. *)
Lemma parse_json_value_long_key_prefix_witness :
  let k62 := repeat "k"%char 62 in
  let k63 := repeat "k"%char 62 ++ lit "x" in
  let json := lit "{ '" ++ k63 ++ lit "': 7 }" in
  (62 <= length (cstring k62) /\ 62 <= length (cstring k63) /\
   firstn 62 (cstring k62) = firstn 62 (cstring k63)) /\
  parse_json_value json k62 32 = Some (lit "7").
Proof.
  intros k62 k63 json.
  assert (H1 : 62 <= length (cstring k62)) by (vm_compute; lia).
  assert (H2 : 62 <= length (cstring k63)) by (vm_compute; lia).
  assert (H3 : firstn 62 (cstring k62) = firstn 62 (cstring k63))
    by (vm_compute; reflexivity).
  split; [exact (conj H1 (conj H2 H3)) |].
  rewrite (parse_json_value_long_key_prefix json k62 k63 32 H1 H2 H3).
  vm_compute. reflexivity.
Defined.

(* ===================================================================== *)
(** ** Beyond the claims: start-up, schedules, streams and the display *)
(* ===================================================================== *)

Lemma run_custom_init {S} tgt (h : handler S) ui g s :
  let t := fst (h _ (Timer_create cb_update_tracker_task DEFAULT_UPDATE_INTERVAL) s) in
  let g2 := apply_write (W_last_modified_time 0) (apply_write (W_update_timer t) g) in
  exists (s_e s_c : S) (t2 : option lv_timer) (banner monitoring : list ascii),
    let re := run h (ensure_update_json_exists tgt) s_e in
    let rc := run h (check_update_status tgt ui g2) s_c in
    let r := run h (custom_init tgt ui g) s in
    value r = value rc /\
    trace r =
      [Entry (Timer_create cb_update_tracker_task DEFAULT_UPDATE_INTERVAL) t;
       Entry (Store (W_update_timer t)) tt;
       Entry (Printf monitoring) tt] ++
      trace re ++ [Entry (Store (W_last_modified_time 0)) tt] ++ trace rc ++
      (if IS_SIMULATOR tgt
       then [Entry (Timer_create cb_simulate_update_cycle 3000) t2;
             Entry (Printf banner) tt]
       else []).
Proof.
  intros t g2. unfold custom_init.
  rewrite run_bind, run_call. cbn [value final trace]. fold t.
  rewrite run_bind, run_store. cbn [value final trace].
  rewrite run_bind, run_call. cbn [value final trace].
  rewrite run_bind. cbn [value final trace].
  rewrite run_bind, run_store. cbn [value final trace]. fold g2.
  rewrite run_bind. cbn [value final trace].
  match goal with
  | |- context [run h (ensure_update_json_exists tgt) ?se] => set (s_e := se)
  end.
  match goal with
  | |- context [run h (check_update_status tgt ui g2) ?sc] => set (s_c := sc)
  end.
  destruct (IS_SIMULATOR tgt).
  - rewrite run_bind, run_call. cbn [value final trace].
    rewrite run_bind, run_call. cbn [value final trace run].
    eexists s_e, s_c, _, _, _. split; [reflexivity |].
    rewrite (unit_tt (fst (h unit (Printf _) (snd (h unit (Store (W_update_timer t)) _))))).
    rewrite (unit_tt (fst (h unit (Printf _)
                             (snd (h (option lv_timer) (Timer_create _ _) _))))).
    rewrite ?app_nil_r. reflexivity.
  - rewrite run_ret. cbn [value final trace].
    eexists s_e, s_c, None, [], _. split; [reflexivity |].
    rewrite (unit_tt (fst (h unit (Printf _) _))).
    rewrite ?app_nil_r. reflexivity.
Qed.

Lemma run_schedule_cons {S} tgt (h : handler S) ui t l g s :
  run h (schedule tgt ui (t :: l) g) s =
  let r1 := run h (run_task tgt ui t g) s in
  let r2 := run h (schedule tgt ui l (value r1)) (final r1) in
  mk_outcome (value r2) (final r2) (trace r1 ++ trace r2).
Proof. cbn [schedule]. rewrite run_bind. reflexivity. Qed.

(** A property of traces that holds of the empty trace and of appends can
    be checked task by task along a schedule, whatever its statics
    invariant [I]. *)
Lemma schedule_induction {S} tgt (h : handler S) ui
      (I : statics -> Prop) (P : list entry -> Prop) :
  P [] ->
  (forall a b, P a -> P b -> P (a ++ b)) ->
  (forall t g s, I g ->
     I (value (run h (run_task tgt ui t g) s)) /\
     P (trace (run h (run_task tgt ui t g) s))) ->
  forall l g s, I g ->
    I (value (run h (schedule tgt ui l g) s)) /\
    P (trace (run h (schedule tgt ui l g) s)).
Proof.
  intros Hnil Happ Hstep. induction l as [| t l IH]; intros g s Hg.
  - split; [exact Hg | exact Hnil].
  - rewrite run_schedule_cons. cbn [value trace].
    destruct (Hstep t g s Hg) as [Hg1 Hp1].
    destruct (IH _ (final (run h (run_task tgt ui t g) s)) Hg1) as [Hg2 Hp2].
    split; [exact Hg2 | exact (Happ _ _ Hp1 Hp2)].
Qed.

Lemma stream_state_app o a b :
  stream_state o (a ++ b) =
  match stream_state o a with
  | Some o' => stream_state o' b
  | None => None
  end.
Proof.
  revert o. induction a as [| [X e x] t IH]; intros o; [reflexivity |].
  cbn [app stream_state]. destruct e; try apply IH; destruct o; try reflexivity;
    apply IH.
Qed.

Lemma stream_state_quiet o tr :
  forallb (fun c => negb (is_stream_call c)) tr = true ->
  stream_state o tr = Some o.
Proof.
  revert o. induction tr as [| [X e x] t IH]; intros o H; [reflexivity |].
  cbn [forallb] in H. apply andb_true_iff in H. destruct H as [H1 H2].
  destruct e; try discriminate H1; cbn [stream_state]; exact (IH o H2).
Qed.

Lemma stream_state_closed_app a b :
  stream_state false a = Some false ->
  stream_state false b = Some false ->
  stream_state false (a ++ b) = Some false.
Proof. intros Ha Hb. rewrite stream_state_app, Ha. exact Hb. Qed.

Lemma read_file_contents_streams {S} (h : handler S) p n s :
  stream_state false (trace (run h (read_file_contents p n) s)) = Some false.
Proof.
  rewrite run_read_file_contents.
  destruct (h bool (Fopen p ModeRb) s) as [[|] s1]; [| reflexivity].
  destruct (h (list ascii) (Fread (n - 1)) s1) as [data s2]. reflexivity.
Qed.

Lemma write_file_contents_streams {S} (h : handler S) p content s :
  stream_state false (trace (run h (write_file_contents p content) s)) = Some false.
Proof.
  rewrite run_write_file_contents.
  destruct (h bool (Fopen p ModeWb) s) as [[|] s1].
  - destruct (h nat (Fwrite (cstring content)) s1) as [n s2]. reflexivity.
  - destruct (h bool (Fopen p ModeWb) (snd (h unit (Mkdir (lit "tmp") 511) s1)))
      as [[|] s3]; [| reflexivity].
    destruct (h nat (Fwrite (cstring content)) s3) as [n s4]. reflexivity.
Qed.

Lemma run_show_status {S} (h : handler S) ui st s :
  trace (run h (show_status ui st) s) =
  map ui_entry (ui_view ui st) ++ [Entry (Printf (msg_update st)) tt].
Proof.
  unfold show_status, ui_view.
  destruct ui as [[a|] [b|] [c|] [d|]];
    cbn [when_present screen_status screen_step screen_progress
         screen_loading_bar on_widget app map ui_entry];
    repeat (rewrite run_bind, run_call; cbn [value final trace]);
    repeat (rewrite run_bind, run_ret; cbn [value final trace]);
    repeat (rewrite run_bind, run_call; cbn [value final trace]);
    repeat (rewrite run_bind, run_ret; cbn [value final trace]);
    repeat (rewrite run_bind, run_call; cbn [value final trace]);
    repeat (rewrite run_bind, run_ret; cbn [value final trace]);
    repeat (rewrite run_bind, run_call; cbn [value final trace]);
    rewrite run_call; cbn [trace app];
    repeat match goal with
           | |- context [fst (h unit ?e ?x)] =>
               rewrite (unit_tt (fst (h unit e x)))
           end;
    reflexivity.
Qed.

(** Every run of a poll tick has one of the six shapes. *)
Lemma tick_cases {S} tgt (h : handler S) ui g s :
  let r := run h (check_update_status tgt ui g) s in
  tick_trace tgt ui g (value r) (trace r).
Proof.
  intros r. subst r.
  pose proof (queried_timestamp_stat tgt h s) as Hts.
  destruct (Z.eq_dec (queried_timestamp tgt h s) 0) as [Hz | Hnz].
  - rewrite (tick_absent tgt h ui g s Hz). rewrite Hts in Hz.
    destruct (10000 <? _)%Z eqn:Hgap; cbn [value trace].
    + apply tick_absent_logged; assumption.
    + apply tick_absent_quiet; assumption.
  - destruct (Z.eq_dec (queried_timestamp tgt h s) (last_modified_time g))
      as [Heq | Hne].
    + rewrite (tick_unchanged tgt h ui g s Hnz Heq). rewrite Hts in Hnz, Heq.
      apply tick_same; assumption.
    + rewrite (tick_changed tgt h ui g s Hnz Hne).
      rewrite run_read_file_contents. rewrite Hts in *.
      destruct (h bool (Fopen (UPDATE_JSON_PATH tgt) ModeRb) _) as [[|] s3].
      * destruct (h (list ascii) (Fread (JSON_BUFFER_SIZE - 1)) s3) as [data s4].
        cbn [value trace final].
        destruct (firstn (JSON_BUFFER_SIZE - 1) data) as [| c buf] eqn:Hbuf.
        -- cbn [length Nat.ltb Nat.leb value trace app].
           apply tick_read_nothing; assumption.
        -- cbn [length Nat.ltb Nat.leb value trace final].
           rewrite run_show_status. rewrite <- Hbuf.
           apply (tick_read_ok tgt ui g _ data Hnz Hne).
           rewrite Hbuf. discriminate.
      * cbn [value trace final app]. apply tick_open_failed; assumption.
Qed.

Lemma write_cases {S} (h : handler S) p content s :
  let r := run h (write_file_contents p content) s in
  write_trace p content (value r) (trace r).
Proof.
  intros r. subst r. rewrite run_write_file_contents.
  destruct (h bool (Fopen p ModeWb) s) as [[|] s1].
  - destruct (h nat (Fwrite (cstring content)) s1) as [n s2]. constructor.
  - destruct (h bool (Fopen p ModeWb) (snd (h unit (Mkdir (lit "tmp") 511) s1)))
      as [[|] s3].
    + destruct (h nat (Fwrite (cstring content)) s3) as [n s4]. constructor.
    + constructor.
Qed.

(** Every run of a simulator tick: a write of the blob of the current
    phase, then the assignments to [update_phase]; the statics it leaves do
    not depend on the environment. *)
Lemma sim_cases {S} tgt (h : handler S) g s :
  let r := run h (simulate_update_cycle tgt g) s in
  value r = apply_write (W_update_phase (next_phase (update_phase g))) g /\
  exists ok wtr stores,
    write_trace (UPDATE_JSON_PATH tgt) (simulate_json_content (update_phase g))
      ok wtr /\
    forallb is_simulator_call stores = true /\
    forallb (fun c => negb (is_stream_call c)) stores = true /\
    trace r = wtr ++ stores.
Proof.
  intros r. destruct (run_simulate_update_cycle tgt h g s) as [Hv Htr].
  fold r in Hv, Htr. split; [exact Hv |].
  eexists _, _, _. split; [apply (write_cases h) |].
  split; [| split; [| exact Htr]];
    destruct (num_phases <=? _)%Z; reflexivity.
Qed.

Lemma ui_entries_quiet (l : list ui_call) o :
  stream_state o (map ui_entry l) = Some o /\
  stat_values (map ui_entry l) = [] /\
  stored_statuses (map ui_entry l) = [] /\
  ui_calls (map ui_entry l) = l /\
  filter is_fs_change (map ui_entry l) = [] /\
  timers_created (map ui_entry l) = [].
Proof.
  induction l as [| [w text | w v] t IH]; [repeat split |
    destruct IH as (H1 & H2 & H3 & H4 & H5 & H6);
    cbn [map ui_entry stream_state stat_values stored_statuses ui_calls filter
         is_fs_change timers_created];
    rewrite ?H1, ?H2, ?H3, ?H4, ?H5, ?H6; repeat split ..].
Qed.

Lemma tick_trace_streams tgt ui g g' tr :
  tick_trace tgt ui g g' tr -> stream_state false tr = Some false.
Proof.
  intros H. destruct H; try reflexivity.
  change (?a :: ?b) with ([a] ++ b).
  rewrite <- !app_assoc. cbn [app stream_state].
  rewrite stream_state_app.
  destruct (ui_entries_quiet (ui_view ui st) false) as [Hq _].
  rewrite Hq. reflexivity.
Qed.

Lemma write_trace_streams p content ok tr :
  write_trace p content ok tr -> stream_state false tr = Some false.
Proof. intros H. destruct H; reflexivity. Qed.

Lemma ensure_update_json_exists_streams {S} tgt (h : handler S) s :
  stream_state false (trace (run h (ensure_update_json_exists tgt) s)) = Some false.
Proof.
  rewrite run_ensure_update_json_exists.
  destruct (_ =? 0)%Z; [| reflexivity].
  cbn [stream_state]. rewrite stream_state_app.
  rewrite (write_trace_streams _ _ _ _ (write_cases h _ _ _)). reflexivity.
Qed.

Lemma custom_init_streams {S} tgt (h : handler S) ui g s :
  stream_state false (trace (run h (custom_init tgt ui g) s)) = Some false.
Proof.
  destruct (run_custom_init tgt h ui g s)
    as (s_e & s_c & t2 & banner & monitoring & _ & Htr).
  rewrite Htr. cbn [app stream_state].
  rewrite stream_state_app, ensure_update_json_exists_streams.
  cbn [app stream_state].
  rewrite stream_state_app, (tick_trace_streams _ _ _ _ _ (tick_cases tgt h ui _ s_c)).
  destruct (IS_SIMULATOR tgt); reflexivity.
Qed.

Lemma run_task_streams {S} tgt (h : handler S) ui t g s :
  stream_state false (trace (run h (run_task tgt ui t g) s)) = Some false.
Proof.
  destruct t; cbn [run_task].
  - exact (tick_trace_streams _ _ _ _ _ (tick_cases tgt h ui g s)).
  - destruct (sim_cases tgt h g s) as (_ & ok & wtr & stores & Hw & _ & Hq & Htr).
    rewrite Htr, stream_state_app, (write_trace_streams _ _ _ _ Hw).
    exact (stream_state_quiet false stores Hq).
Qed.

(** X4.  Over the whole life of the watcher ([custom_init], then the two
    tasks in any order, any number of times) and for every environment, the
    stdio stream discipline is kept: no stream is opened while another is
    open, every [fread], [fwrite] and [fclose] acts on an open stream, and
    no stream is left open (every successful [fopen] is closed before the
    function that made it returns). *)
Theorem streams_always_closed :
  forall (tgt : target) (S : Type) (h : handler S) (s : S) (ui : lv_ui)
         (g : statics) (l : list task),
    stream_state false (trace (run h (lifetime tgt ui l g) s)) = Some false.
Proof.
  intros tgt S h s ui g l. unfold lifetime. rewrite run_bind. cbn [trace].
  apply stream_state_closed_app; [apply custom_init_streams |].
  apply (schedule_induction tgt h ui (fun _ => True)
           (fun tr => stream_state false tr = Some false));
    [reflexivity | exact stream_state_closed_app | | exact I].
  intros t g0 s0 _. split; [exact I | apply run_task_streams].
Qed.

Lemma stat_values_app a b : stat_values (a ++ b) = stat_values a ++ stat_values b.
Proof.
  induction a as [| [X e x] t IH]; [reflexivity |].
  cbn [app stat_values]. destruct e; cbn [app]; rewrite ?IH; reflexivity.
Qed.

Lemma timers_created_app a b :
  timers_created (a ++ b) = timers_created a ++ timers_created b.
Proof.
  induction a as [| [X e x] t IH]; [reflexivity |].
  cbn [app timers_created]. destruct e; cbn [app]; rewrite ?IH; reflexivity.
Qed.

Lemma ui_calls_app a b : ui_calls (a ++ b) = ui_calls a ++ ui_calls b.
Proof.
  induction a as [| [X e x] t IH]; [reflexivity |].
  cbn [app ui_calls]. destruct e; cbn [app]; rewrite ?IH; reflexivity.
Qed.

Lemma stored_statuses_app a b :
  stored_statuses (a ++ b) = stored_statuses a ++ stored_statuses b.
Proof.
  induction a as [| [X e x] t IH]; [reflexivity |].
  cbn [app stored_statuses]. destruct e; try exact IH.
  destruct w; cbn [app]; rewrite ?IH; reflexivity.
Qed.

(** What each shape of a poll tick does to the observations. *)
Lemma tick_trace_facts tgt ui g g' tr :
  tick_trace tgt ui g g' tr ->
  exists ts,
    stat_values tr = [ts] /\
    last_modified_time g' = (if (ts =? 0)%Z then last_modified_time g else ts) /\
    reads tr = (if (ts =? 0)%Z || (ts =? last_modified_time g)%Z then 0 else 1) /\
    update_timer g' = update_timer g /\
    update_phase g' = update_phase g /\
    timers_created tr = [] /\
    filter is_fs_change tr = [] /\
    ui_calls tr = flat_map (ui_view ui) (stored_statuses tr) /\
    current_status g' = last (stored_statuses tr) (current_status g).
Proof.
  intros H. destruct H as [a t Hz Hq | a t Hz Hl | a Hnz Heq | a Hnz Hne
                          | a data Hnz Hne Hd | a data Hnz Hne Hd];
    exists (stat_value a).
  - rewrite (proj2 (Z.eqb_eq _ _) Hz). repeat split.
  - rewrite (proj2 (Z.eqb_eq _ _) Hz). repeat split.
  - apply Z.eqb_neq in Hnz.
    rewrite Hnz, (proj2 (Z.eqb_eq _ _) Heq), orb_true_r. repeat split.
    exact (eq_sym Heq).
  - apply Z.eqb_neq in Hnz. apply Z.eqb_neq in Hne. rewrite Hnz, Hne.
    repeat split.
  - apply Z.eqb_neq in Hnz. apply Z.eqb_neq in Hne. rewrite Hnz, Hne.
    repeat split.
  - apply Z.eqb_neq in Hnz. apply Z.eqb_neq in Hne. rewrite Hnz, Hne.
    destruct (ui_entries_quiet (ui_view ui st) false)
      as (_ & Q1 & Q2 & Q3 & Q4 & Q5).
    unfold reads.
    rewrite !stat_values_app, !timers_created_app, !ui_calls_app,
      !stored_statuses_app, !filter_app, !count_app, Q1, Q2, Q3, Q4, Q5.
    assert (Hr : count is_read (map ui_entry (ui_view ui st)) = 0).
    { clear. induction (ui_view ui st) as [| [w x | w v] l IH];
        [reflexivity | exact IH | exact IH]. }
    rewrite Hr. cbn. rewrite !app_nil_r. repeat split.
Qed.

Lemma simulator_calls_facts tr :
  forallb is_simulator_call tr = true ->
  stat_values tr = [] /\ reads tr = 0 /\ timers_created tr = [] /\
  ui_calls tr = [] /\ stored_statuses tr = [].
Proof.
  induction tr as [| [X e x] t IH]; intros H; [repeat split |].
  cbn [forallb] in H. apply andb_true_iff in H. destruct H as [H1 H2].
  destruct (IH H2) as (F1 & F2 & F3 & F4 & F5).
  destruct e; try discriminate H1;
    try (destruct m; try discriminate H1);
    try (destruct w; try discriminate H1);
    unfold reads in *; cbn; repeat split; assumption.
Qed.

Lemma write_trace_simulator_calls p content ok tr :
  write_trace p content ok tr -> forallb is_simulator_call tr = true.
Proof. intros H. destruct H; reflexivity. Qed.

Lemma simulate_update_cycle_calls {S} tgt (h : handler S) g s :
  forallb is_simulator_call (trace (run h (simulate_update_cycle tgt g) s)) = true.
Proof.
  destruct (sim_cases tgt h g s) as (_ & ok & wtr & stores & Hw & Hs & _ & Htr).
  rewrite Htr, forallb_app, (write_trace_simulator_calls _ _ _ _ Hw), Hs.
  reflexivity.
Qed.

Lemma ensure_update_json_exists_facts {S} tgt (h : handler S) s :
  let tr := trace (run h (ensure_update_json_exists tgt) s) in
  stat_values tr = [queried_timestamp tgt h s] /\ reads tr = 0 /\
  timers_created tr = [].
Proof.
  intros tr. subst tr. rewrite run_ensure_update_json_exists.
  destruct (_ =? 0)%Z.
  - destruct (simulator_calls_facts _
                (write_trace_simulator_calls _ _ _ _
                   (write_cases h (UPDATE_JSON_PATH tgt) default_json
                      (after_stat tgt h s)))) as (F1 & F2 & F3 & _).
    unfold reads in *.
    change (?a :: ?t ++ ?u) with ([a] ++ t ++ u).
    rewrite !stat_values_app, !timers_created_app, !count_app, F1, F2, F3.
    cbn. rewrite queried_timestamp_stat. repeat split.
  - cbn. rewrite queried_timestamp_stat. repeat split.
Qed.

(** X5.  [custom_init] looks at the timestamp twice (bootstrap, then the
    first check).  Because it resets [last_modified_time] to 0 in between,
    the first check reads the file exactly when that second timestamp is
    non-zero, whatever [last_modified_time] was before, and leaves
    [last_modified_time] equal to it.  It creates the poll timer first,
    with period 2000, and keeps its handle in [update_timer]; the simulator
    timer (period 3000) is created in the simulator build only. *)
Theorem custom_init_first_check :
  forall (tgt : target) (S : Type) (h : handler S) (s : S) (ui : lv_ui)
         (g : statics),
    let r := run h (custom_init tgt ui g) s in
    let ts := last (stat_values (trace r)) 0%Z in
    length (stat_values (trace r)) = 2 /\
    reads (trace r) = (if (ts =? 0)%Z then 0 else 1) /\
    last_modified_time (value r) = ts /\
    map fst (timers_created (trace r)) =
      (cb_update_tracker_task, DEFAULT_UPDATE_INTERVAL) ::
      (if IS_SIMULATOR tgt then [(cb_simulate_update_cycle, 3000%Z)] else []) /\
    option_map snd (hd_error (timers_created (trace r)))
      = Some (update_timer (value r)).
Proof.
  intros tgt S h s ui g r ts.
  destruct (run_custom_init tgt h ui g s)
    as (s_e & s_c & t2 & banner & monitoring & Hv & Htr).
  cbv zeta in Hv, Htr. fold r in Hv, Htr.
  set (t := fst (h _ (Timer_create cb_update_tracker_task DEFAULT_UPDATE_INTERVAL) s))
    in *.
  set (g2 := apply_write (W_last_modified_time 0) (apply_write (W_update_timer t) g))
    in *.
  destruct (ensure_update_json_exists_facts tgt h s_e) as (E1 & E2 & E3).
  destruct (tick_trace_facts _ _ _ _ _ (tick_cases tgt h ui g2 s_c))
    as (tc & C1 & C2 & C3 & C4 & _ & C6 & _).
  assert (Hstats : stat_values (trace r) = [queried_timestamp tgt h s_e; tc]).
  { rewrite Htr, !stat_values_app, E1, C1.
    destruct (IS_SIMULATOR tgt); reflexivity. }
  assert (Hts : ts = tc) by (subst ts; rewrite Hstats; reflexivity).
  rewrite Hts, Hstats, Hv, C2, C4.
  change (last_modified_time g2) with 0%Z in *.
  split; [reflexivity |]. split; [| split; [| split]].
  - unfold reads in *. rewrite Htr, !count_app, E2, C3.
    rewrite orb_diag.
    destruct (IS_SIMULATOR tgt); destruct (tc =? 0)%Z; reflexivity.
  - destruct (Z.eqb_spec tc 0); congruence.
  - rewrite Htr, !timers_created_app, E3, C6.
    destruct (IS_SIMULATOR tgt); reflexivity.
  - rewrite Htr. reflexivity.
Qed.

Lemma run_task_keeps_timer {S} tgt (h : handler S) ui t g s :
  update_timer (value (run h (run_task tgt ui t g) s)) = update_timer g.
Proof.
  destruct t; cbn [run_task].
  - destruct (tick_trace_facts _ _ _ _ _ (tick_cases tgt h ui g s))
      as (ts & _ & _ & _ & H & _). exact H.
  - destruct (sim_cases tgt h g s) as (Hv & _). rewrite Hv. reflexivity.
Qed.

Lemma schedule_keeps_timer {S} tgt (h : handler S) ui l g s :
  update_timer (value (run h (schedule tgt ui l g) s)) = update_timer g.
Proof.
  apply (schedule_induction tgt h ui
           (fun g' => update_timer g' = update_timer g) (fun _ => True));
    [exact I | intros; exact I | | reflexivity].
  intros t g0 s0 Hg. split; [| exact I].
  rewrite run_task_keeps_timer. exact Hg.
Qed.

Lemma run_set_update_polling_interval {S} (h : handler S) interval_ms g s :
  trace (run h (set_update_polling_interval interval_ms g) s) =
  match update_timer g with
  | Some t =>
      [Entry (Timer_set_period t interval_ms) tt;
       Entry (Printf (lit "Update polling interval set to " ++
                      fmt_d (int_wrap interval_ms) ++ lit " ms" ++ [LF])) tt]
  | None => []
  end.
Proof.
  unfold set_update_polling_interval. destruct (update_timer g) as [t |];
    [| reflexivity].
  cbn [bind call run].
  destruct (h unit (Timer_set_period t interval_ms) s) as [[] s1].
  destruct (h unit (Printf _) s1) as [[] s2]. reflexivity.
Qed.

(** X6.  [set_update_polling_interval] acts on the timer that
    [custom_init] created for [update_tracker_task], however many ticks of
    either task have run since: it sets the period of that handle, and of
    no other, then logs.  It makes no call at all when [lv_timer_create]
    returned [NULL], or when the watcher was never started. *)
Theorem polling_interval_targets_poll_timer :
  forall (tgt : target) (S : Type) (h : handler S) (s : S) (ui : lv_ui)
         (g : statics) (l : list task) (interval_ms : Z)
         (S' : Type) (h' : handler S') (s' : S'),
    let life := run h (lifetime tgt ui l g) s in
    let r := run h' (set_update_polling_interval interval_ms (value life)) s' in
    (exists t : option lv_timer,
        hd_error (timers_created (trace life))
          = Some (cb_update_tracker_task, DEFAULT_UPDATE_INTERVAL, t) /\
        trace r =
          match t with
          | Some timer =>
              [Entry (Timer_set_period timer interval_ms) tt;
               Entry (Printf (lit "Update polling interval set to " ++
                              fmt_d (int_wrap interval_ms) ++ lit " ms" ++ [LF]))
                 tt]
          | None => []
          end) /\
    trace (run h' (set_update_polling_interval interval_ms initial_statics) s')
      = [].
Proof.
  intros tgt S h s ui g l interval_ms S' h' s' life r. split.
  - subst r. rewrite run_set_update_polling_interval.
    subst life. unfold lifetime. rewrite run_bind. cbn [value trace].
    rewrite schedule_keeps_timer.
    destruct (run_custom_init tgt h ui g s)
      as (s_e & s_c & t2 & banner & monitoring & Hv & Htr).
    cbv zeta in Hv, Htr. rewrite Hv, Htr.
    destruct (tick_trace_facts _ _ _ _ _
                (tick_cases tgt h ui
                   (apply_write (W_last_modified_time 0)
                      (apply_write (W_update_timer
                         (fst (h _ (Timer_create cb_update_tracker_task
                                      DEFAULT_UPDATE_INTERVAL) s))) g)) s_c))
      as (ts & _ & _ & _ & Ht & _).
    rewrite Ht. cbn [update_timer apply_write].
    eexists. split; reflexivity.
  - rewrite run_set_update_polling_interval. reflexivity.
Qed.

Lemma last_default {A} (l : list A) (x d d' : A) :
  last (x :: l) d = last (x :: l) d'.
Proof.
  revert x. induction l as [| y t IH]; intros x; [reflexivity |].
  change (last (x :: y :: t) d) with (last (y :: t) d).
  change (last (x :: y :: t) d') with (last (y :: t) d').
  apply IH.
Qed.

Lemma last_app {A} (a b : list A) (d : A) : last (a ++ b) d = last b (last a d).
Proof.
  induction a as [| x t IH]; [reflexivity |].
  destruct t as [| y t'].
  - destruct b as [| z b']; [reflexivity |].
    change (last ([x] ++ z :: b') d) with (last (z :: b') d).
    apply last_default.
  - change (last ((x :: y :: t') ++ b) d) with (last ((y :: t') ++ b) d).
    rewrite IH. reflexivity.
Qed.

Lemma run_task_display {S} tgt (h : handler S) ui t g s :
  let r := run h (run_task tgt ui t g) s in
  ui_calls (trace r) = flat_map (ui_view ui) (stored_statuses (trace r)) /\
  current_status (value r) = last (stored_statuses (trace r)) (current_status g) /\
  last_modified_time (value r)
    = last_nonzero (last_modified_time g) (stat_values (trace r)).
Proof.
  intros r. subst r. destruct t; cbn [run_task].
  - destruct (tick_trace_facts _ _ _ _ _ (tick_cases tgt h ui g s))
      as (ts & F1 & F2 & _ & _ & _ & _ & _ & F8 & F9).
    change (update_tracker_task tgt ui g) with (check_update_status tgt ui g).
    rewrite F1, F2. repeat split; assumption.
  - destruct (sim_cases tgt h g s) as (Hv & _).
    destruct (simulator_calls_facts _ (simulate_update_cycle_calls tgt h g s))
      as (F1 & _ & _ & F4 & F5).
    rewrite F1, F4, F5, Hv. repeat split.
Qed.

(** X7.  Along any schedule of the two tasks, the display calls that the
    tasks make are exactly one view per assignment to [current_status], in
    the same order, made of the fields of the value assigned: the status
    and step texts, the percentage text and the bar value, for the widgets
    that exist.  The stored status at the end is the last one assigned
    (the one at the start if none was), and ticks that assign nothing make
    no display call.  Nothing is said of what the widgets show before the
    first assignment: that is the text the screen set-up gave them. *)
Theorem display_follows_store :
  forall (tgt : target) (S : Type) (h : handler S) (ui : lv_ui)
         (l : list task) (g : statics) (s : S),
    let r := run h (schedule tgt ui l g) s in
    ui_calls (trace r) = flat_map (ui_view ui) (stored_statuses (trace r)) /\
    current_status (value r)
      = last (stored_statuses (trace r)) (current_status g).
Proof.
  intros tgt S h ui l. induction l as [| t l IH]; intros g s r; subst r.
  - split; reflexivity.
  - rewrite run_schedule_cons. cbn [value trace].
    destruct (run_task_display tgt h ui t g s) as (D1 & D2 & _).
    destruct (IH (value (run h (run_task tgt ui t g) s))
                (final (run h (run_task tgt ui t g) s))) as (I1 & I2).
    rewrite ui_calls_app, stored_statuses_app, flat_map_app, last_app.
    rewrite D1, I1, I2, D2. split; reflexivity.
Qed.

(** X8.  Along any schedule of the two tasks, [last_modified_time] is the
    last non-zero timestamp that a poll tick has queried (its previous
    value if there was none): it follows every change of the file's
    timestamp, whether or not the read that followed succeeded, and a tick
    that finds the file absent does not reset it. *)
Theorem last_modified_time_tracks_file :
  forall (tgt : target) (S : Type) (h : handler S) (ui : lv_ui)
         (l : list task) (g : statics) (s : S),
    let r := run h (schedule tgt ui l g) s in
    last_modified_time (value r)
      = last_nonzero (last_modified_time g) (stat_values (trace r)).
Proof.
  intros tgt S h ui l. induction l as [| t l IH]; intros g s r; subst r.
  - reflexivity.
  - rewrite run_schedule_cons. cbn [value trace].
    destruct (run_task_display tgt h ui t g s) as (_ & _ & D3).
    rewrite IH, stat_values_app. unfold last_nonzero in *.
    rewrite fold_left_app, D3. reflexivity.
Qed.

Lemma int_wrap_range z : (- 2 ^ 31 <= int_wrap z < 2 ^ 31)%Z.
Proof.
  unfold int_wrap, wrap_signed. change (32 - 1)%Z with 31%Z.
  pose proof (Z.mod_pos_bound (z + 2 ^ 31) (2 ^ 32)) as H. lia.
Qed.

Lemma atoi_range v : (- 2 ^ 31 <= atoi v < 2 ^ 31)%Z.
Proof. unfold atoi. apply int_wrap_range. Qed.

Lemma parse_status_fits buffer st :
  status_fits st -> status_fits (parse_status buffer st).
Proof.
  intros (Hp & Hl1 & Hc1 & Hl2 & Hc2). unfold parse_status.
  assert (Hfield : forall key v,
             parse_json_value buffer key 64 = Some v ->
             length v <= 63 /\ is_c_text v = true).
  { intros key v E. split.
    - destruct (parse_json_value_inside buffer key 64 v) as (Hl & _);
        [lia | exact E | lia].
    - apply (parse_json_value_c_text buffer key 64); [lia | exact E]. }
  destruct (parse_json_value buffer (lit "progress") 32) as [v0 |];
    destruct (parse_json_value buffer (lit "status") 64) as [v1 |] eqn:E1;
    destruct (parse_json_value buffer (lit "step") 64) as [v2 |] eqn:E2;
    unfold status_fits; cbn [progress status step];
    try (destruct (Hfield _ _ E1) as (L1 & C1));
    try (destruct (Hfield _ _ E2) as (L2 & C2));
    repeat split; try assumption; try apply atoi_range;
    try (apply (proj1 Hp)); try (apply (proj2 Hp)).
Qed.

Lemma tick_trace_status tgt ui g g' tr :
  tick_trace tgt ui g g' tr ->
  (current_status g' = current_status g /\ stored_statuses tr = []) \/
  exists buffer,
    current_status g' = parse_status buffer (current_status g) /\
    stored_statuses tr = [parse_status buffer (current_status g)].
Proof.
  intros H. destruct H as [a t Hz Hq | a t Hz Hl | a Hnz Heq | a Hnz Hne
                          | a data Hnz Hne Hd | a data Hnz Hne Hd];
    try (left; split; reflexivity).
  right. exists (firstn (JSON_BUFFER_SIZE - 1) data).
  destruct (ui_entries_quiet (ui_view ui st) false) as (_ & _ & Q3 & _).
  rewrite !stored_statuses_app, Q3. split; reflexivity.
Qed.

Lemma run_task_status_fits {S} tgt (h : handler S) ui t g s :
  status_fits (current_status g) ->
  status_fits (current_status (value (run h (run_task tgt ui t g) s))) /\
  Forall status_fits (stored_statuses (trace (run h (run_task tgt ui t g) s))).
Proof.
  intros Hg. destruct t; cbn [run_task].
  - change (update_tracker_task tgt ui g) with (check_update_status tgt ui g).
    destruct (tick_trace_status _ _ _ _ _ (tick_cases tgt h ui g s))
      as [(E1 & E2) | (buffer & E1 & E2)]; rewrite E1, E2.
    + split; [exact Hg | constructor].
    + split; [| constructor; [| constructor]];
        apply parse_status_fits; exact Hg.
  - destruct (sim_cases tgt h g s) as (Hv & _).
    destruct (simulator_calls_facts _ (simulate_update_cycle_calls tgt h g s))
      as (_ & _ & _ & _ & F5).
    rewrite F5, Hv. split; [exact Hg | constructor].
Qed.

Lemma ensure_update_json_exists_stores {S} tgt (h : handler S) s :
  stored_statuses (trace (run h (ensure_update_json_exists tgt) s)) = [].
Proof.
  rewrite run_ensure_update_json_exists.
  destruct (_ =? 0)%Z; [| reflexivity].
  destruct (simulator_calls_facts _
              (write_trace_simulator_calls _ _ _ _
                 (write_cases h (UPDATE_JSON_PATH tgt) default_json
                    (after_stat tgt h s)))) as (_ & _ & _ & _ & F5).
  change (?a :: ?t ++ ?u) with ([a] ++ t ++ u).
  rewrite !stored_statuses_app, F5. reflexivity.
Qed.

(** X9.  The stored status always fits the C structure that holds it
    ([int progress; char status[64]; char step[64]]).  If it does at
    start-up, then over the whole life of the watcher ([custom_init], then
    the two tasks in any order) and for every environment and file content,
    every value assigned to [current_status], and the value stored at the
    end, has a progress within [int] and two texts of at most 63 bytes with
    no NUL byte inside, so that each is a C string within its 64-byte
    array. *)
Theorem current_status_always_fits :
  forall (tgt : target) (S : Type) (h : handler S) (s : S) (ui : lv_ui)
         (g : statics) (l : list task),
    status_fits (current_status g) ->
    let r := run h (lifetime tgt ui l g) s in
    status_fits (current_status (value r)) /\
    Forall status_fits (stored_statuses (trace r)).
Proof.
  intros tgt S h s ui g l Hg r. subst r. unfold lifetime.
  rewrite run_bind. cbn [value trace].
  destruct (run_custom_init tgt h ui g s)
    as (s_e & s_c & t2 & banner & monitoring & Hv & Htr).
  cbv zeta in Hv, Htr.
  set (g2 := apply_write (W_last_modified_time 0)
               (apply_write (W_update_timer
                  (fst (h _ (Timer_create cb_update_tracker_task
                               DEFAULT_UPDATE_INTERVAL) s))) g)) in *.
  assert (Hg2 : status_fits (current_status g2)) by exact Hg.
  destruct (run_task_status_fits tgt h ui PollTick g2 s_c Hg2) as (T1 & T2).
  cbn [run_task] in T1, T2.
  change (update_tracker_task tgt ui g2) with (check_update_status tgt ui g2)
    in T1, T2.
  rewrite <- Hv in T1.
  assert (Hinit : Forall status_fits
                    (stored_statuses (trace (run h (custom_init tgt ui g) s)))).
  { rewrite Htr, !stored_statuses_app, ensure_update_json_exists_stores.
    destruct (IS_SIMULATOR tgt); cbn [stored_statuses app];
      rewrite ?app_nil_r; exact T2. }
  destruct (schedule_induction tgt h ui
              (fun g0 => status_fits (current_status g0))
              (fun tr => Forall status_fits (stored_statuses tr))) with
    (l := l) (g := value (run h (custom_init tgt ui g) s))
    (s := final (run h (custom_init tgt ui g) s)) as (R1 & R2).
  - constructor.
  - intros a b Ha Hb. rewrite stored_statuses_app. apply Forall_app.
    split; assumption.
  - intros t g0 s0 H0. apply run_task_status_fits. exact H0.
  - exact T1.
  - split; [exact R1 |].
    rewrite stored_statuses_app. apply Forall_app. split; assumption.
Qed.

Lemma current_status_always_fits_witness :
  status_fits (current_status initial_statics) /\
  status_fits
    (current_status
       (value (run MemFS.handle
                 (lifetime SimulatorBuild full_ui [SimTick; PollTick; SimTick]
                    initial_statics)
                 (MemFS.empty_at 100)))).
Proof.
  assert (H : status_fits (current_status initial_statics)).
  { unfold status_fits. cbn. repeat split; lia. }
  split; [exact H |].
  exact (proj1 (current_status_always_fits SimulatorBuild _ MemFS.handle
                  (MemFS.empty_at 100) full_ui initial_statics
                  [SimTick; PollTick; SimTick] H)).
Defined.

Lemma next_phase_moves p : next_phase p <> p.
Proof.
  unfold next_phase, int_wrap, wrap_signed. change (32 - 1)%Z with 31%Z.
  cbv zeta.
  pose proof (Z.div_mod (p + 1 + 2 ^ 31) (2 ^ 32)) as D.
  pose proof (Z.mod_pos_bound (p + 1 + 2 ^ 31) (2 ^ 32)) as B.
  destruct (num_phases <=? _)%Z eqn:E.
  - intros H0. subst p. vm_compute in E. discriminate E.
  - lia.
Qed.

(** X10.  A simulator tick touches nothing but the status file and its own
    phase counter: every call it makes is an open for writing, a [mkdir],
    an [fwrite], an [fclose] or an assignment to [update_phase]; the other
    statics keep their values; and, since the result of
    [write_file_contents] is not looked at, the statics it leaves are the
    same in every environment: the phase moves on, to a different value,
    also when nothing could be written. *)
Theorem simulator_tick_frame :
  forall (tgt : target) (S : Type) (h : handler S) (g : statics) (s : S),
    let r := run h (simulate_update_cycle tgt g) s in
    forallb is_simulator_call (trace r) = true /\
    same_but_phase g (value r) /\
    (forall (S' : Type) (h' : handler S') (s' : S'),
        value (run h' (simulate_update_cycle tgt g) s') = value r) /\
    update_phase (value r) <> update_phase g.
Proof.
  intros tgt S h g s r. subst r.
  destruct (sim_cases tgt h g s) as (Hv & _).
  split; [apply simulate_update_cycle_calls |].
  split; [rewrite Hv; repeat split |].
  split.
  - intros S' h' s'. destruct (sim_cases tgt h' g s') as (Hv' & _).
    rewrite Hv, Hv'. reflexivity.
  - rewrite Hv. destruct g as [a b c d e]. cbn [apply_write update_phase].
    apply next_phase_moves.
Qed.

Lemma no_fs_change_written tr : filter is_fs_change tr = [] -> written tr = [].
Proof.
  induction tr as [| [X e x] t IH]; [reflexivity |].
  cbn [filter is_fs_change written].
  destruct e; try (destruct m); try discriminate; exact IH.
Qed.

Lemma run_task_accounting {S} tgt (h : handler S) ui t g s :
  let r := run h (run_task tgt ui t g) s in
  length (stat_values (trace r)) = polls [t] /\
  reads (trace r) <= polls [t] /\
  count is_fs_change (trace r) <= 4 * sims [t] /\
  length (written (trace r)) <= sims [t] /\
  timers_created (trace r) = [] /\
  update_timer (value r) = update_timer g.
Proof.
  intros r. subst r. destruct t; cbn [run_task].
  - change (update_tracker_task tgt ui g) with (check_update_status tgt ui g).
    destruct (tick_trace_facts _ _ _ _ _ (tick_cases tgt h ui g s))
      as (ts & F1 & _ & F3 & F4 & _ & F6 & F7 & _).
    unfold count. rewrite F1, F3, F7, (no_fs_change_written _ F7), F6, F4.
    repeat split; cbn; try lia.
    destruct (_ || _); lia.
  - destruct (run_simulate_update_cycle tgt h g s) as (Hv & Htr).
    cbv zeta in Hv, Htr. rewrite Hv, Htr.
    pose proof (write_cases h (UPDATE_JSON_PATH tgt)
                  (simulate_json_content (update_phase g)) s) as Hw.
    cbv zeta in Hw.
    unfold reads.
    rewrite stat_values_app, !count_app, written_app, timers_created_app.
    destruct Hw; destruct (num_phases <=? _)%Z; cbn; repeat split; lia.
Qed.

Lemma task_counts_cons t l :
  polls (t :: l) = polls [t] + polls l /\ sims (t :: l) = sims [t] + sims l.
Proof. destruct t; split; reflexivity. Qed.

(** X11.  Who does what along any schedule of the two tasks, in every
    environment: the file's timestamp is queried exactly once per poll tick
    and never by the simulator; the file is read at most once per poll
    tick; the calls that change the file system (open for writing,
    [fwrite], [mkdir]) number at most four per simulator tick, with at most
    one payload each, so that a schedule of poll ticks alone never writes;
    no timer is created and [update_timer] keeps its value. *)
Theorem schedule_accounting :
  forall (tgt : target) (S : Type) (h : handler S) (ui : lv_ui)
         (l : list task) (g : statics) (s : S),
    let r := run h (schedule tgt ui l g) s in
    length (stat_values (trace r)) = polls l /\
    reads (trace r) <= polls l /\
    count is_fs_change (trace r) <= 4 * sims l /\
    length (written (trace r)) <= sims l /\
    timers_created (trace r) = [] /\
    update_timer (value r) = update_timer g.
Proof.
  intros tgt S h ui l. induction l as [| t l IH]; intros g s r; subst r.
  - cbn. repeat split; lia.
  - rewrite run_schedule_cons. cbn [value trace].
    destruct (run_task_accounting tgt h ui t g s)
      as (A1 & A2 & A3 & A4 & A5 & A6).
    destruct (IH (value (run h (run_task tgt ui t g) s))
                (final (run h (run_task tgt ui t g) s)))
      as (B1 & B2 & B3 & B4 & B5 & B6).
    destruct (task_counts_cons t l) as (P & Q).
    unfold reads in *.
    rewrite stat_values_app, !count_app, written_app, timers_created_app,
      !length_app, A5, B5, B6, A6, P, Q.
    repeat split; lia.
Qed.

Lemma atoi_not_numeric v : starts_numeric v = false -> atoi v = 0%Z.
Proof.
  destruct v as [| c t]; [reflexivity |].
  unfold starts_numeric, atoi, strtol. intros H.
  apply orb_false_iff in H. destruct H as [H Hplus].
  apply orb_false_iff in H. destruct H as [H Hminus].
  apply orb_false_iff in H. destruct H as [Hsp Hd].
  cbn [skip_while]. rewrite Hsp, Hminus, Hplus.
  cbn [atoi_digits]. rewrite Hd. reflexivity.
Qed.

(** X12.  When the extraction of the progress succeeds with a value that
    does not start like a number (not white space, a sign or a digit:
    [null], [true], an empty or a worded text), the stored progress is not
    left as it was: [atoi] gives 0 for it, so the progress becomes 0
    whatever it was before. *)
Theorem non_numeric_progress_resets :
  forall (buffer : list ascii) (st : update_status_t) (v : list ascii),
    parse_json_value buffer (lit "progress") 32 = Some v ->
    starts_numeric v = false ->
    progress (parse_status buffer st) = 0%Z.
Proof.
  intros buffer st v Hp Hn. unfold parse_status. rewrite Hp.
  rewrite (atoi_not_numeric v Hn).
  destruct (parse_json_value buffer (lit "status") 64);
    destruct (parse_json_value buffer (lit "step") 64); reflexivity.
Qed.

Lemma non_numeric_progress_resets_witness :
  let buffer := lit "{ 'progress': null, 'status': 'Installing' }" in
  let st := mk_status 50 (lit "System Updating...") (lit "Installing updates") in
  parse_json_value buffer (lit "progress") 32 = Some (lit "null") /\
  starts_numeric (lit "null") = false /\
  progress st = 50%Z /\
  progress (parse_status buffer st) = 0%Z.
Proof.
  cbv zeta.
  assert (H1 : parse_json_value
                 (lit "{ 'progress': null, 'status': 'Installing' }")
                 (lit "progress") 32 = Some (lit "null"))
    by (vm_compute; reflexivity).
  assert (H2 : starts_numeric (lit "null") = false) by (vm_compute; reflexivity).
  split; [exact H1 |]. split; [exact H2 |]. split; [reflexivity |].
  exact (non_numeric_progress_resets _
           (mk_status 50 (lit "System Updating...") (lit "Installing updates"))
           _ H1 H2).
Defined.

(** X13.  What [write_file_contents] does, in every environment.  It
    returns [true] exactly when an [fwrite] reported the whole length of
    what it was given.  What it hands to [fwrite] is the content as a C
    string (up to its first NUL byte), once, and only if one of the opens
    returned a stream.  The file is opened a second time exactly when
    [mkdir] was called, which happens at most once, exactly when the first
    open failed; there is no third attempt. *)
Theorem write_file_contents_outcomes :
  forall (S : Type) (h : handler S) (p content : list ascii) (s : S),
    let r := run h (write_file_contents p content) s in
    let first_open_ok := fst (h _ (Fopen p ModeWb) s) in
    value r = existsb is_complete_write (trace r) /\
    written (trace r) =
      (if existsb is_open_for_write (trace r) then [cstring content] else []) /\
    mkdirs (trace r) = (if first_open_ok then [] else [lit "tmp"]) /\
    count is_open_wb (trace r) = 1 + length (mkdirs (trace r)) /\
    hd_error (trace r) = Some (Entry (Fopen p ModeWb) first_open_ok).
Proof.
  intros S h p content s r first_open_ok. subst r first_open_ok.
  rewrite run_write_file_contents. cbv zeta.
  destruct (h bool (Fopen p ModeWb) s) as [[|] s1]; cbn [fst].
  - destruct (h nat (Fwrite (cstring content)) s1) as [n s2].
    cbn. rewrite orb_false_r. repeat split.
  - destruct (h bool (Fopen p ModeWb) (snd (h unit (Mkdir (lit "tmp") 511) s1)))
      as [[|] s3].
    + destruct (h nat (Fwrite (cstring content)) s3) as [n s4].
      cbn. rewrite orb_false_r. repeat split.
    + cbn. repeat split.
Qed.
